(** * Dosage viewer (streamlit_app.py): shallow embedding and properties

    The viewer is a Python script.  Its text values are Python [str]
    objects, i.e. sequences of Unicode code points, and its integers are
    unbounded.  Accordingly a character is a code point in [N], a string is
    a list of code points, page numbers are in [Z] and duration counts in
    [N].  Interaction with the outside (the two command-line tools, the
    rasteriser, the file system, the widgets of the UI framework) is made
    explicit: every external answer is an argument, every displayed element
    is an item of an output list, the session dictionary is threaded
    through.

    Left out: the memoisation of [st.cache_data] (a decorated function is
    modelled as the function it memoises), the layout containers
    ([st.columns], which display nothing themselves), and the limit the
    interpreter puts on the number of digits of a conversion between
    [int] and [str] (4300 digits unless configured otherwise). *)

From Stdlib Require Import List ZArith NArith Lia Bool String Ascii.
From Stdlib Require Import DecimalString Sorted Permutation.
Import ListNotations.

Set Implicit Arguments.

(** ** Python strings *)

Module PyStr.

Definition char := N.
Definition str := list char.

(** Source literals are written as UTF-8 string literals and decoded to
    code points, so that they can be compared with the Python text. *)
Fixpoint utf8_decode (bs : list N) : str :=
  match bs with
  | [] => []
  | b :: rest =>
      if (b <? 128)%N then b :: utf8_decode rest
      else if (b <? 224)%N then
        match rest with
        | b1 :: rest1 => ((b - 192) * 64 + (b1 - 128))%N :: utf8_decode rest1
        | _ => []
        end
      else if (b <? 240)%N then
        match rest with
        | b1 :: b2 :: rest2 =>
            ((b - 224) * 4096 + (b1 - 128) * 64 + (b2 - 128))%N
              :: utf8_decode rest2
        | _ => []
        end
      else
        match rest with
        | b1 :: b2 :: b3 :: rest3 =>
            ((b - 240) * 262144 + (b1 - 128) * 4096
             + (b2 - 128) * 64 + (b3 - 128))%N :: utf8_decode rest3
        | _ => []
        end
  end.

Definition u (s : string) : str :=
  utf8_decode (map N_of_ascii (list_ascii_of_string s)).

(** [str.isspace] for one code point: the set [str.strip()] removes. *)
Definition is_space (c : char) : bool :=
  ((9 <=? c) && (c <=? 13) || (28 <=? c) && (c <=? 32)
   || (c =? 133) || (c =? 160) || (c =? 5760)
   || (8192 <=? c) && (c <=? 8202)
   || (c =? 8232) || (c =? 8233) || (c =? 8239) || (c =? 8287)
   || (c =? 12288))%N.

Fixpoint lstrip (s : str) : str :=
  match s with
  | c :: rest => if is_space c then lstrip rest else s
  | [] => []
  end.

Definition rstrip (s : str) : str := rev (lstrip (rev s)).

(** [s.strip()] *)
Definition strip (s : str) : str := rstrip (lstrip s).

(** [s.split(sep)] for a one-character separator: one more piece than
    there are separators, the empty string giving one empty piece. *)
Fixpoint split (sep : char) (s : str) : list str :=
  match s with
  | [] => [[]]
  | c :: rest =>
      if (c =? sep)%N then [] :: split sep rest
      else match split sep rest with
           | piece :: pieces => (c :: piece) :: pieces
           | [] => [[c]]
           end
  end.

(** [sep.join(parts)] *)
Fixpoint join (sep : str) (parts : list str) : str :=
  match parts with
  | [] => []
  | [p] => p
  | p :: rest => p ++ sep ++ join sep rest
  end.

Fixpoint eqb (a b : str) : bool :=
  match a, b with
  | [], [] => true
  | x :: a', y :: b' => (x =? y)%N && eqb a' b'
  | _, _ => false
  end.

(** [s.startswith(prefix)] *)
Fixpoint startswith (prefix s : str) : bool :=
  match prefix, s with
  | [], _ => true
  | p :: prefix', c :: s' => (p =? c)%N && startswith prefix' s'
  | _ :: _, [] => false
  end.

(** [s.endswith(suffix)] *)
Definition endswith (suffix s : str) : bool :=
  startswith (rev suffix) (rev s).

(** [needle in s] *)
Fixpoint contains (needle s : str) : bool :=
  startswith needle s
  || match s with
     | [] => false
     | _ :: s' => contains needle s'
     end.

(** [a <= b] on strings: lexicographic on code points, the order
    [sorted] uses. *)
Fixpoint leb (a b : str) : bool :=
  match a, b with
  | [], _ => true
  | _ :: _, [] => false
  | x :: a', y :: b' => (x <? y)%N || (x =? y)%N && leb a' b'
  end.

(** [str(n)] for an integer. *)
Definition of_string (s : string) : str :=
  map N_of_ascii (list_ascii_of_string s).

Definition str_of_N (n : N) : str :=
  of_string (NilZero.string_of_uint (N.to_uint n)).

Definition str_of_Z (z : Z) : str :=
  of_string (NilZero.string_of_int (Z.to_int z)).

End PyStr.

Import PyStr.

(** ** The Unicode character database

    The tables of the interpreter's Unicode database are not part of the
    repository; the functions below take them as an interface.
    [decimal_value c] is the digit value of [c] when [c] is a decimal digit
    (what the regex class [\d] accepts and [int()] converts), [is_word c]
    tells whether [\w] accepts [c], and [lower] is [str.lower()]. *)
Class Unicode := {
  decimal_value : char -> option N;
  is_word : char -> bool;
  lower : str -> str
}.

(** The facts about the tables that the regular expressions rely on: the
    unit letters of a duration are not digits. *)
Definition letters_not_digits (U : Unicode) : Prop :=
  forall c, In c [89; 77; 87; 68]%N -> decimal_value c = None.

(** The tables restricted to Basic Latin and the Russian alphabet (every
    other code point is classed as no digit, no word character and
    caseless); on text within these ranges it agrees with the
    interpreter. *)
Definition basic_lower_char (c : char) : char :=
  (if (65 <=? c) && (c <=? 90) then c + 32
   else if (1040 <=? c) && (c <=? 1071) then c + 32
   else if c =? 1025 then 1105
   else c)%N.

Definition basic_unicode : Unicode := {|
  decimal_value c :=
    (if (48 <=? c) && (c <=? 57) then Some (c - 48) else None)%N;
  is_word c :=
    ((48 <=? c) && (c <=? 57) || (65 <=? c) && (c <=? 90)
     || (97 <=? c) && (c <=? 122) || (c =? 95)
     || (1040 <=? c) && (c <=? 1103) || (c =? 1025) || (c =? 1105))%N;
  lower := map basic_lower_char
|}.

(** ** Duration humanizer *)

Section Humanize.
Context {U : Unicode}.

Definition is_digit (c : char) : bool :=
  match decimal_value c with Some _ => true | None => false end.

(** Longest prefix of decimal digits, and the rest. *)
Fixpoint span_digits (s : str) : str * str :=
  match s with
  | c :: rest =>
      if is_digit c then let (ds, tl) := span_digits rest in (c :: ds, tl)
      else ([], s)
  | [] => ([], [])
  end.

(** One optional group [(?:(\d+)L)?] at the head of [s]: the captured
    digits and the text after the group, or nothing consumed. *)
Definition opt_group (letter : char) (s : str) : option str * str :=
  match span_digits s with
  | (d :: ds, c :: rest) =>
      if (c =? letter)%N then (Some (d :: ds), rest) else (None, s)
  | _ => (None, s)
  end.

(** [re.fullmatch(r"P(?:(\d+)Y)?(?:(\d+)M)?(?:(\d+)W)?(?:(\d+)D)?", s)]:
    the four groups, when the whole of [s] matches. *)
Definition match_duration (s : str)
  : option (option str * option str * option str * option str) :=
  match s with
  | c :: s0 =>
      if (c =? 80)%N then
        let (gy, s1) := opt_group 89%N s0 in
        let (gm, s2) := opt_group 77%N s1 in
        let (gw, s3) := opt_group 87%N s2 in
        let (gd, s4) := opt_group 68%N s3 in
        match s4 with
        | [] => Some (gy, gm, gw, gd)
        | _ => None
        end
      else None
  | [] => None
  end.

(** [int(ds)] on a string of decimal digits. *)
Definition int_of_digits (ds : str) : N :=
  fold_left
    (fun acc c => (10 * acc + match decimal_value c with
                              | Some d => d
                              | None => 0
                              end)%N)
    ds 0%N.

(** [int(m.group(i) or 0)] *)
Definition group_int (g : option str) : N :=
  match g with
  | Some ds => int_of_digits ds
  | None => 0%N
  end.

Definition abbr_years : str := Eval vm_compute in u " г.".
Definition abbr_months : str := Eval vm_compute in u " мес.".
Definition abbr_weeks : str := Eval vm_compute in u " нед.".
Definition abbr_days : str := Eval vm_compute in u " дн.".

(** [if count: parts.append(f"{count}<abbr>")] *)
Definition unit_part (count : N) (abbr : str) : list str :=
  if (count =? 0)%N then [] else [str_of_N count ++ abbr].

Definition humanize_iso_duration (value : str) : str :=
  match match_duration (strip value) with
  | None => value
  | Some (gy, gm, gw, gd) =>
      let years := group_int gy in
      let months := group_int gm in
      let weeks := group_int gw in
      let days := group_int gd in
      let parts :=
        unit_part years abbr_years ++ unit_part months abbr_months
        ++ unit_part weeks abbr_weeks ++ unit_part days abbr_days in
      match parts with
      | [] => value
      | _ => join [32%N] parts
      end
  end.

End Humanize.

(** ** Selection list *)

Section Listing.
Context {U : Unicode}.

Definition json_suffix : str := Eval vm_compute in u ".json".
Definition prednisolone : str := Eval vm_compute in u "преднизолон".

(** The names [RESULTS_DIR.glob("*.json")] yields, from the names of the
    directory's entries (POSIX matching: case-sensitive, [*] matches any
    text, also the empty one). *)
Definition glob_json (entries : list str) : list str :=
  filter (endswith json_suffix) entries.

Fixpoint insert_sorted (x : str) (l : list str) : list str :=
  match l with
  | [] => [x]
  | y :: l' => if leb x y then x :: l else y :: insert_sorted x l'
  end.

(** [sorted(names)]: the order on strings is total and antisymmetric, so
    the sorted list does not depend on the sorting algorithm. *)
Definition sorted (names : list str) : list str :=
  fold_right insert_sorted [] names.

(** ["преднизолон" in name.lower()] *)
Definition is_prednisolone (name : str) : bool :=
  contains prednisolone (lower name).

(** One turn of the loop over [files]; the state is
    [(filtered, prednisolone_kept)]. *)
Definition keep_step (st : list str * bool) (name : str) : list str * bool :=
  let (filtered, prednisolone_kept) := st in
  if is_prednisolone name then
    if prednisolone_kept then st
    else (filtered ++ [name], true)
  else (filtered ++ [name], prednisolone_kept).

(** [results_dir] is [None] when [RESULTS_DIR] does not exist, else the
    names of its entries in the order the file system lists them. *)
Definition list_result_files (results_dir : option (list str)) : list str :=
  match results_dir with
  | None => []
  | Some entries =>
      let files :=
        sorted (filter (fun name => negb (startswith [95%N] name))
                       (glob_json entries)) in
      fst (fold_left keep_step files ([], false))
  end.

End Listing.

(** ** Labels *)

Definition KEY_LABELS_RU : list (str * str) := Eval vm_compute in [
  (u "indications", u "Показания");
  (u "dosage", u "Схемы дозирования");
  (u "tags", u "Теги");
  (u "indication", u "Схема");
  (u "startDosage", u "Начальная доза");
  (u "dose", u "Доза");
  (u "unit", u "Единица");
  (u "interval", u "Интервал");
  (u "intervalUnit", u "Единица интервала");
  (u "intakeCount", u "Кратность приема");
  (u "daily_dose", u "Суточная доза");
  (u "courseDurationMin", u "Минимальная длительность курса");
  (u "courseDurationMax", u "Максимальная длительность курса");
  (u "courseDuration", u "Длительность курса");
  (u "loading_dose", u "Нагрузочная доза");
  (u "courseMaxF", u "Ограничение курса (формула)");
  (u "expr", u "Формула");
  (u "vars", u "Переменные");
  (u "schemaDescription", u "Описание схемы");
  (u "step1", u "Шаг 1");
  (u "step2", u "Шаг 2");
  (u "step3", u "Шаг 3");
  (u "specialPatientGroups", u "Особые группы пациентов");
  (u "icd10_code", u "Код МКБ-10");
  (u "disease", u "Состояние/группа");
  (u "administration", u "Способ применения");
  (u "time", u "Время приема");
  (u "food", u "Связь с приемом пищи");
  (u "form", u "Лекарственная форма")
].

(** [d.get(key)] on a dictionary kept as its list of items. *)
Fixpoint dict_lookup {V : Type} (d : list (str * V)) (key : str) : option V :=
  match d with
  | [] => None
  | (k, v) :: d' => if PyStr.eqb k key then Some v else dict_lookup d' key
  end.

(** [d.get(key, default)] *)
Definition dict_get {V : Type} (d : list (str * V)) (key : str) (default : V)
  : V :=
  match dict_lookup d key with
  | Some v => v
  | None => default
  end.

Definition label_ru (key : str) : str := dict_get KEY_LABELS_RU key key.

(** ** Displayed elements

    What a run puts on the page, in order: each call of the UI framework
    that displays something is one element ([st.markdown], [st.caption],
    [st.error], [st.warning], [st.button], [st.image]). *)
Inductive element (image : Type) : Type :=
| Markdown (body : str) (unsafe_allow_html : bool)
| Caption (body : str)
| Error (body : str)
| Warning (body : str)
| Button (label key : str)
| Image (img : image) (caption : str).

Arguments Markdown {image} body unsafe_allow_html.
Arguments Caption {image} body.
Arguments Error {image} body.
Arguments Warning {image} body.
Arguments Button {image} label key.
Arguments Image {image} img caption.

(** ** Tags and scalar lines *)

(** A scalar of the result record.  A float is kept as the text [str()]
    gives it, the only thing the viewer does with one. *)
Inductive scalar : Type :=
| SNone
| SBool (b : bool)
| SInt (z : Z)
| SFloat (text : str)
| SStr (s : str).

(** [str(value)], which is also what an f-string field gives. *)
Definition py_str (value : scalar) : str :=
  match value with
  | SNone => u "None"
  | SBool true => u "True"
  | SBool false => u "False"
  | SInt z => str_of_Z z
  | SFloat text => text
  | SStr s => s
  end.

(** [enumerate(l, start)] *)
Fixpoint enumerate {A : Type} (start : nat) (l : list A) : list (nat * A) :=
  match l with
  | [] => []
  | x :: l' => (start, x) :: enumerate (S start) l'
  end.

Definition is_empty (s : str) : bool :=
  match s with [] => true | _ => false end.

Definition palette : list str := Eval vm_compute in
  map u ["#E3F2FD"; "#E8F5E9"; "#FFF3E0"; "#F3E5F5"; "#E0F7FA"]%string.

(** [[p.strip() for p in raw_tags.split(";") if p.strip()]] *)
Definition tag_parts (raw_tags : str) : list str :=
  map strip (filter (fun p => negb (is_empty (strip p))) (split 59%N raw_tags)).

Definition chip_html (item : nat * str) : str :=
  let (idx, part) := item in
  let bg := nth (idx mod List.length palette) palette [] in
  u "<span style='background:" ++ bg
  ++ u "; color:#111111; padding:4px 8px; border-radius:6px; "
  ++ u "margin-right:6px; display:inline-block; margin-bottom:6px;'>"
  ++ part ++ u "</span>".

Section Rendering.
Context {U : Unicode} {image : Type}.

Definition render_tags (raw_tags : str) : list (element image) :=
  let parts := tag_parts raw_tags in
  match parts with
  | [] => []
  | _ =>
      let html_parts := map chip_html (enumerate 0 parts) in
      [Markdown (u "**" ++ label_ru (u "tags") ++ u ":**  " ++ List.concat html_parts)
                true]
  end.

Definition duration_keys : list str := Eval vm_compute in
  map u ["courseDurationMin"; "courseDurationMax"; "courseDuration"]%string.

Definition interval_units : list (str * str) := Eval vm_compute in [
  (u "DAY", u "день"); (u "WEEK", u "неделя");
  (u "MONTH", u "месяц"); (u "YEAR", u "год")
].

Definition humanize_value (key : str) (value : scalar) : scalar :=
  match value, existsb (PyStr.eqb key) duration_keys with
  | SStr s, true => SStr (humanize_iso_duration s)
  | _, _ =>
      if PyStr.eqb key (u "intervalUnit") then
        match dict_lookup interval_units (py_str value) with
        | Some word => SStr word
        | None => value
        end
      else value
  end.

(** [isinstance(value, str) and not value.strip()] *)
Definition is_blank (value : scalar) : bool :=
  match value with
  | SStr s => is_empty (strip s)
  | _ => false
  end.

Definition scalar_line_html (label value_class text : str) : str :=
  u "<div class='dense-line'>"
  ++ u "<span class='dense-key'>" ++ label ++ u ":</span> <span class='"
  ++ value_class ++ u "'>" ++ text ++ u "</span>"
  ++ u "</div>".

Definition render_scalar_line (key : str) (value : scalar)
  : list (element image) :=
  match value with
  | SNone => []
  | _ =>
      if is_blank value then []
      else if PyStr.eqb key (u "tags") then render_tags (py_str value)
      else
        let value := humanize_value key value in
        let value_class :=
          if PyStr.eqb key (u "schemaDescription")
          then u "dense-value-regular" else u "dense-value" in
        [Markdown (scalar_line_html (label_ru key) value_class (py_str value))
                  true]
  end.

End Rendering.

(** ** Exceptions and external tools *)

Inductive exn : Type :=
| FileNotFoundError
| CalledProcessError (returncode : Z)
| UnicodeDecodeError
| ValueError
| IndexError
| KeyError (key : str)
| OtherException (name : str).

(** The value of an expression that may raise. *)
Inductive result (A : Type) : Type :=
| Ok (a : A)
| Raised (e : exn).

Arguments Ok {A} a.
Arguments Raised {A} e.

Definition rbind {A B : Type} (r : result A) (k : A -> result B) : result B :=
  match r with
  | Ok a => k a
  | Raised e => Raised e
  end.

(** The collaborators of the viewer, for one state of the file system.
    [pdftotext p] is the standard output of
    [subprocess.run([pdftotext, "-layout", p, "-"], capture_output=True,
    text=True, check=True)] or the exception the call raises (binary
    missing, non-zero exit status, undecodable output); [pdfinfo p] the
    same for [subprocess.run([pdfinfo, p], ...)]; [convert_from_path p dpi
    first_page last_page fmt] is the list of images of the rasteriser or
    the exception it raises; [path_exists p] is [p.exists()]; [uri_quote]
    is the percent-encoding [Path.as_uri] applies to the path. *)
Class World := {
  image : Type;
  pdftotext : str -> result str;
  pdfinfo : str -> result str;
  convert_from_path : str -> Z -> Z -> Z -> str -> result (list image);
  path_exists : str -> bool;
  uri_quote : str -> str
}.

(** ** Section locator *)

Section Locator.
Context {U : Unicode} {W : World}.

Definition is_word_at (c : option char) : bool :=
  match c with
  | Some c => is_word c
  | None => false
  end.

(** [\b] between [prev] and [next] ([None] at either end of the text). *)
Definition word_boundary (prev next : option char) : bool :=
  xorb (is_word_at prev) (is_word_at next).

(** [marker.search(text)] for [marker = re.compile(r"\b4[.,]1\b",
    flags=re.IGNORECASE)], scanning from the character after [prev].  The
    pattern has no cased character, so the flag changes nothing. *)
Fixpoint marker_search_from (prev : option char) (text : str) : bool :=
  match text with
  | [] => false
  | c0 :: rest =>
      match rest with
      | c1 :: c2 :: tl =>
          ((c0 =? 52) && ((c1 =? 46) || (c1 =? 44)) && (c2 =? 49))%N
          && word_boundary prev (Some c0)
          && word_boundary (Some c2) (hd_error tl)
      | _ => false
      end
      || marker_search_from (Some c0) rest
  end.

Definition marker_search (text : str) : bool := marker_search_from None text.

(** The loop [for idx, text in enumerate(pages, start=idx): if
    marker.search(text): return idx]; [None] when it runs to its end. *)
Fixpoint scan_pages (idx : Z) (pages : list str) : option Z :=
  match pages with
  | [] => None
  | text :: pages' =>
      if marker_search text then Some idx else scan_pages (idx + 1) pages'
  end.

Definition find_section_page (pdf_path : str) (section : str) : Z :=
  match pdftotext pdf_path with
  | Raised _ => 1
  | Ok stdout =>
      let pages := split 12%N stdout in
      match scan_pages 1 pages with
      | Some idx => idx
      | None => 1
      end
  end.

(** ** Page count *)

Definition is_linebreak (c : char) : bool :=
  ((10 <=? c) && (c <=? 13) || (28 <=? c) && (c <=? 30)
   || (c =? 133) || (c =? 8232) || (c =? 8233))%N.

(** [s.splitlines()]; [cur] is the current line, reversed. *)
Fixpoint splitlines_from (cur : str) (s : str) : list str :=
  match s with
  | [] => match cur with [] => [] | _ => [rev cur] end
  | c :: rest =>
      if is_linebreak c then
        rev cur ::
          match rest with
          | c' :: rest' =>
              if ((c =? 13) && (c' =? 10))%N then splitlines_from [] rest'
              else splitlines_from [] rest
          | [] => splitlines_from [] rest
          end
      else splitlines_from (c :: cur) rest
  end.

Definition splitlines (s : str) : list str := splitlines_from [] s.

(** Digits with single underscores between them, as [int()] reads them. *)
Fixpoint digits_value (acc : N) (after_digit : bool) (s : str) : option N :=
  match s with
  | [] => if after_digit then Some acc else None
  | c :: rest =>
      match decimal_value c with
      | Some d => digits_value (10 * acc + d) true rest
      | None =>
          if (c =? 95)%N && after_digit then digits_value acc false rest
          else None
      end
  end.

(** [int(s)]: surrounding whitespace, an optional sign, digits. *)
Definition py_int (s : str) : result Z :=
  let body := strip s in
  let (negative, digits) :=
    match body with
    | c :: rest =>
        if (c =? 45)%N then (true, rest)
        else if (c =? 43)%N then (false, rest)
        else (false, body)
    | [] => (false, body)
    end in
  match digits_value 0 false digits with
  | Some n => Ok (if negative then - Z.of_N n else Z.of_N n)%Z
  | None => Raised ValueError
  end.

(** [s.split(sep, 1)[1]] *)
Fixpoint after_first (sep : char) (s : str) : result str :=
  match s with
  | [] => Raised IndexError
  | c :: rest => if (c =? sep)%N then Ok rest else after_first sep rest
  end.

(** The loop over the lines of the tool's output, inside the [try]. *)
Fixpoint scan_lines (lines : list str) : result (option Z) :=
  match lines with
  | [] => Ok None
  | line :: lines' =>
      if startswith (u "pages:") (lower line) then
        rbind (after_first 58%N line) (fun field =>
        rbind (py_int (strip field)) (fun count =>
        Ok (Some (Z.max 1 count))))
      else scan_lines lines'
  end.

Definition get_pdf_page_count (pdf_path : str) : Z :=
  match rbind (pdfinfo pdf_path) (fun stdout => scan_lines (splitlines stdout))
  with
  | Ok (Some count) => count
  | Ok None => 1
  | Raised _ => 1
  end.

(** ** Page renderer *)

Definition render_pdf_page_as_image (pdf_path : str) (page : Z)
  : result (option image) :=
  rbind (convert_from_path pdf_path 120 page page (u "png")) (fun images =>
  Ok (match images with
      | img :: _ => Some img
      | [] => None
      end)).

End Locator.

(** ** Session state and the page

    [st.session_state], restricted to the entries the viewer stores itself
    (page numbers), is a dictionary from keys to integers.  A computation
    that displays elements and reads or writes the session either ends
    normally or raises; in both cases the session and the elements
    displayed so far remain. *)

Definition session := list (str * Z).

Fixpoint store (key : str) (v : Z) (ss : session) : session :=
  match ss with
  | [] => [(key, v)]
  | (k, w) :: ss' =>
      if PyStr.eqb k key then (k, v) :: ss' else (k, w) :: store key v ss'
  end.

Section Viewer.
Context {U : Unicode} {W : World}.

Inductive outcome (A : Type) : Type :=
| Done (a : A) (ss : session) (out : list (element image))
| Crash (e : exn) (ss : session) (out : list (element image)).

Arguments Done {A} a ss out.
Arguments Crash {A} e ss out.

Definition St (A : Type) : Type := session -> outcome A.

Definition ret {A : Type} (a : A) : St A := fun ss => Done a ss [].

Definition bind {A B : Type} (m : St A) (k : A -> St B) : St B :=
  fun ss =>
    match m ss with
    | Done a ss1 out1 =>
        match k a ss1 with
        | Done b ss2 out2 => Done b ss2 (out1 ++ out2)
        | Crash e ss2 out2 => Crash e ss2 (out1 ++ out2)
        end
    | Crash e ss1 out1 => Crash e ss1 out1
    end.

(** [try: body except Exception: handler] *)
Definition try_except {A : Type} (body : St A) (handler : St A) : St A :=
  fun ss =>
    match body ss with
    | Done a ss1 out1 => Done a ss1 out1
    | Crash _ ss1 out1 =>
        match handler ss1 with
        | Done a ss2 out2 => Done a ss2 (out1 ++ out2)
        | Crash e ss2 out2 => Crash e ss2 (out1 ++ out2)
        end
    end.

Definition lift {A : Type} (r : result A) : St A :=
  fun ss =>
    match r with
    | Ok a => Done a ss []
    | Raised e => Crash e ss []
    end.

Definition display (e : element image) : St unit := fun ss => Done tt ss [e].

(** [st.session_state[key]] *)
Definition get_state (key : str) : St Z :=
  fun ss =>
    match dict_lookup ss key with
    | Some v => Done v ss []
    | None => Crash (KeyError key) ss []
    end.

(** [key in st.session_state] *)
Definition has_state (key : str) : St bool :=
  fun ss =>
    Done (match dict_lookup ss key with Some _ => true | None => false end)
         ss [].

(** [st.session_state[key] = v] *)
Definition set_state (key : str) (v : Z) : St unit :=
  fun ss => Done tt (store key v ss) [].

End Viewer.

Arguments Done {W A} a ss out.
Arguments Crash {W A} e ss out.

Notation "x <- m ;; k" := (bind m (fun x => k))
  (at level 61, m at next level, right associativity).
Notation "m ;;; k" := (bind m (fun _ => k))
  (at level 61, right associativity).

Section Pagination.
Context {U : Unicode} {W : World}.

(** [clicked key] is what [st.button(..., key=key)] returns in this run. *)
Variable clicked : str -> bool.

Definition st_button (label key : str) : St bool :=
  display (Button label key) ;;; ret (clicked key).

Definition render_page_control (total_pages : Z)
    (page_state_key key_prefix : str) (show_label : bool) : St unit :=
  page <- get_state page_state_key ;;
  (if show_label then
     display (Caption (u "Страница " ++ str_of_Z page ++ u " из "
                       ++ str_of_Z total_pages))
   else ret tt) ;;;
  prev <- st_button (u "← Назад") (key_prefix ++ u "_prev") ;;
  let page := if prev then Z.max 1 (page - 1) else page in
  next <- st_button (u "Вперед →") (key_prefix ++ u "_next") ;;
  let page := if next then Z.min total_pages (page + 1) else page in
  set_state page_state_key (Z.min (Z.max page 1) total_pages).

(** A path is its text, in POSIX form. *)
Definition is_absolute (path : str) : bool := startswith [47%N] path.

(** [path.name]: the text after the last slash. *)
Definition path_name (path : str) : str := last (split 47%N path) [].

(** [path.as_uri()], which refuses a relative path. *)
Definition as_uri (path : str) : result str :=
  if is_absolute path then Ok (u "file://" ++ uri_quote path)
  else Raised ValueError.

Definition render_pdf (pdf_path : str) (state_key : str) : St unit :=
  if negb (path_exists pdf_path) then
    display (Error (u "PDF не найден: `" ++ pdf_path ++ u "`"))
  else
    let total_pages := get_pdf_page_count pdf_path in
    let start_page := find_section_page pdf_path (u "4.1") in
    let start_page := Z.min (Z.max start_page 1) total_pages in
    let page_state_key := u "pdf_page_" ++ state_key in
    present <- has_state page_state_key ;;
    (if negb present then set_state page_state_key start_page else ret tt) ;;;
    render_page_control total_pages page_state_key (u "top_" ++ state_key)
                        true ;;;
    current_page <- get_state page_state_key ;;
    returned <-
      try_except
        (img <- lift (render_pdf_page_as_image pdf_path current_page) ;;
         match img with
         | Some img =>
             display (Image img (path_name pdf_path ++ u ", страница "
                                 ++ str_of_Z current_page ++ u "/"
                                 ++ str_of_Z total_pages)) ;;;
             render_page_control total_pages page_state_key
                                 (u "bottom_" ++ state_key) false ;;;
             ret true
         | None => ret false
         end)
        (ret false) ;;
    if returned then ret tt
    else
      display (Warning (u "Не удалось отрендерить страницу PDF в приложении. Открываю fallback-ссылку.")) ;;;
      uri <- lift (as_uri pdf_path) ;;
      display (Markdown (u "[Открыть PDF-файл](" ++ uri ++ u ")") false).

End Pagination.

(** ** Sequences of runs

    The framework re-runs the script after every interaction; the session
    survives from one run to the next, whether the run ended normally or
    not. *)

Section Runs.
Context {U : Unicode} {W : World}.

Definition session_after {A : Type} (o : outcome A) : session :=
  match o with
  | Done _ ss _ => ss
  | Crash _ ss _ => ss
  end.

Definition displayed {A : Type} (o : outcome A) : list (element image) :=
  match o with
  | Done _ _ out => out
  | Crash _ _ out => out
  end.



End Runs.

(** ** Statements of the specification

    The definitions of this part follow the words of the specification,
    not the code; the theorems compare the two. *)

Section Reference.
Context {U : Unicode} {W : World}.

(** The text of one optional group of the duration pattern. *)
Definition group_text (g : option str) (letter : char) : str :=
  match g with
  | Some ds => ds ++ [letter]
  | None => []
  end.

(** A captured group is a non-empty run of decimal digits. *)
Definition group_ok (g : option str) : Prop :=
  match g with
  | Some ds => ds <> [] /\ forallb is_digit ds = true
  | None => True
  end.

(** [s] is in the duration subset, its counts being [gy], [gm], [gw] and
    [gd]: the language of the regular expression. *)
Definition duration_shape (s : str) (gy gm gw gd : option str) : Prop :=
  group_ok gy /\ group_ok gm /\ group_ok gw /\ group_ok gd
  /\ s = 80%N :: group_text gy 89%N ++ group_text gm 77%N
              ++ group_text gw 87%N ++ group_text gd 68%N.

Definition duration_units (gy gm gw gd : option str)
  : list (option str * str) :=
  [(gy, abbr_years); (gm, abbr_months); (gw, abbr_weeks); (gd, abbr_days)].

(** Every unit whose count is present, as count and abbreviation. *)
Definition spec_present_units (gy gm gw gd : option str) : list str :=
  flat_map (fun gu : option str * str =>
              match fst gu with
              | Some ds => [str_of_N (int_of_digits ds) ++ snd gu]
              | None => []
              end)
           (duration_units gy gm gw gd).

(** Every unit whose count is present and not zero. *)
Definition spec_nonzero_units (gy gm gw gd : option str) : list str :=
  flat_map (fun gu : option str * str =>
              match fst gu with
              | Some ds =>
                  if (int_of_digits ds =? 0)%N then []
                  else [str_of_N (int_of_digits ds) ++ snd gu]
              | None => []
              end)
           (duration_units gy gm gw gd).

(** A pattern built from the label: the label's [.] accepts [.] or [,],
    every other character is compared without regard to case. *)
Definition spec_label_char (l c : char) : bool :=
  if (l =? 46)%N then ((c =? 46) || (c =? 44))%N
  else PyStr.eqb (lower [l]) (lower [c]).

Fixpoint spec_match_label (label text : str) (last : option char)
  : option (option char * str) :=
  match label with
  | [] => Some (last, text)
  | l :: label' =>
      match text with
      | c :: text' =>
          if spec_label_char l c then spec_match_label label' text' (Some c)
          else None
      | [] => None
      end
  end.

Definition spec_label_at (label : str) (prev : option char) (text : str)
  : bool :=
  match spec_match_label label text prev with
  | Some (last, rest) =>
      word_boundary prev (hd_error text) && word_boundary last (hd_error rest)
  | None => false
  end.

Fixpoint spec_label_search_from (label : str) (prev : option char)
    (text : str) : bool :=
  spec_label_at label prev text
  || match text with
     | [] => false
     | c :: rest => spec_label_search_from label (Some c) rest
     end.

Fixpoint spec_scan_pages (label : str) (idx : Z) (pages : list str)
  : option Z :=
  match pages with
  | [] => None
  | text :: pages' =>
      if spec_label_search_from label None text then Some idx
      else spec_scan_pages label (idx + 1) pages'
  end.

(** The locator as the specification words it, the pattern coming from
    [section]. *)
Definition spec_find_section_page (pdf_path : str) (section : str) : Z :=
  match pdftotext pdf_path with
  | Raised _ => 1
  | Ok stdout =>
      match spec_scan_pages section 1 (split 12%N stdout) with
      | Some idx => idx
      | None => 1
      end
  end.

(** The text starts with an ASCII digit. *)
Definition head_digit (s : str) : Prop :=
  match s with
  | c :: _ => (48 <= c <= 57)%N
  | [] => False
  end.

(** The order of [sorted], as a relation. *)
Definition str_le (a b : str) : Prop := leb a b = true.

End Reference.

(** ** Sample environments *)

(** A document of three pages; the second holds a heading 5.2 and none
    holds a heading 4.1. *)
Definition sample_text : str :=
  u "Contents" ++ [12%N] ++ u "5.2 Dosage" ++ [12%N] ++ u "Notes".

Definition sample_world (text : result str) (images : result (list N))
  : World := {|
  image := N;
  pdftotext := fun _ => text;
  pdfinfo := fun _ => Ok (u "Title: leaflet" ++ [10%N] ++ u "Pages:   3" ++ [10%N]);
  convert_from_path := fun _ _ _ _ _ => images;
  path_exists := fun _ => true;
  uri_quote := fun path => path
|}.

Definition no_click : str -> bool := fun _ => false.

(** The names of a listing of three files, two of them protected. *)
Definition sample_listing : list str :=
  [u "преднизолон_таблетки.json"; u "Преднизолон_мазь.json";
   u "аспирин.json"].

Section ReferencePagination.
Context {U : Unicode} {W : World}.

(** The character before position [length pre] of a text that starts
    with [pre], [prev] being the character before the text. *)
Definition last_char (prev : option char) (pre : str) : option char :=
  last (map Some pre) prev.

(** The page [render_page_control] stores, from the page it reads. *)
Definition page_after_control (clicked : str -> bool) (total_pages : Z)
    (key_prefix : str) (page : Z) : Z :=
  let page :=
    if clicked (key_prefix ++ u "_prev") then Z.max 1 (page - 1) else page in
  let page :=
    if clicked (key_prefix ++ u "_next") then Z.min total_pages (page + 1)
    else page in
  Z.min (Z.max page 1) total_pages.

(** The page [render_pdf] asks the rasteriser for: the stored page, or
    the clamped result of the locator when none is stored, after the top
    control. *)
Definition shown_page (clicked : str -> bool) (pdf_path state_key : str)
    (ss : session) : Z :=
  let total_pages := get_pdf_page_count pdf_path in
  page_after_control clicked total_pages (u "top_" ++ state_key)
    (match dict_lookup ss (u "pdf_page_" ++ state_key) with
     | Some page => page
     | None =>
         Z.min (Z.max (find_section_page pdf_path (u "4.1")) 1) total_pages
     end).

(** What one call of the control displays. *)
Definition control_elements (total_pages : Z) (key_prefix : str)
    (show_label : bool) (page : Z) : list (element image) :=
  (if show_label then
     [Caption (u "Страница " ++ str_of_Z page ++ u " из "
               ++ str_of_Z total_pages)]
   else [])
  ++ [Button (u "← Назад") (key_prefix ++ u "_prev");
      Button (u "Вперед →") (key_prefix ++ u "_next")].

(** The fallback: a warning and a link to the file. *)
Definition fallback_warning : element image :=
  Warning (u "Не удалось отрендерить страницу PDF в приложении. Открываю fallback-ссылку.").

Definition fallback_link (uri : str) : element image :=
  Markdown (u "[Открыть PDF-файл](" ++ uri ++ u ")") false.

Definition in_range (total_pages : Z) (key : str) (ss : session) : Prop :=
  exists page, dict_lookup ss key = Some page /\ (1 <= page <= total_pages)%Z.

Definition is_warning (e : element image) : bool :=
  match e with
  | Warning _ => true
  | _ => false
  end.

End ReferencePagination.

(** ** Structured record renderer

    The result record is the value [json.loads] gives: a scalar, a list
    or a dictionary, whose items are kept in their order. *)
#[local] Unset Elimination Schemes.

Inductive json : Type :=
| JScalar (value : scalar)
| JList (items : list json)
| JDict (entries : list (str * json)).

#[local] Set Elimination Schemes.

(** What the record renderer puts on the page: elements, and the scalars
    it hands to [st.write]. *)
Inductive rendered (image : Type) : Type :=
| Shown (e : element image)
| Written (data : scalar).

Arguments Shown {image} e.
Arguments Written {image} data.

(** [for idx, x in enumerate(l, start): body], the outputs in order. *)
Fixpoint for_enumerate {A B : Type} (body : nat -> A -> list B) (start : nat)
    (l : list A) : list B :=
  match l with
  | [] => []
  | x :: l' => body start x ++ for_enumerate body (S start) l'
  end.

(** [for key, value in d.items(): body] *)
Fixpoint for_items {A B : Type} (body : str -> A -> list B)
    (entries : list (str * A)) : list B :=
  match entries with
  | [] => []
  | kv :: entries' => body (fst kv) (snd kv) ++ for_items body entries'
  end.

Definition block_style : str :=
  u "<div style='border:1px solid #d9d9d9; border-radius:10px; ".

Definition title_style : str :=
  u "<div style='font-weight:700; margin-bottom:4px; line-height:1.05; color:#111111;'>".

Section Structured.
Context {U : Unicode} {image : Type}.

Definition open_block (title : str) : list (rendered image) :=
  [Shown (Markdown
            (block_style
             ++ u "padding:8px 10px; margin:6px 0; background:#fafafa;'>"
             ++ title_style ++ title ++ u "</div>")
            true)].

Definition open_block_soft (title : str) : list (rendered image) :=
  [Shown (Markdown
            (block_style
             ++ u "padding:8px 10px; margin:6px 0; background:#f5f8ff;'>"
             ++ title_style ++ title ++ u "</div>")
            true)].

Definition close_block : list (rendered image) :=
  [Shown (Markdown (u "</div>") true)].

Definition subtitle (key : str) : list (rendered image) :=
  [Shown (Markdown (u "<div class='dense-subtitle'>" ++ label_ru key
                    ++ u "</div>")
                   true)].

Definition scheme_title (idx : nat) : str :=
  u "Схема " ++ str_of_N (N.of_nat idx).

Fixpoint render_structured (data : json) (level : Z) (parent_key : str)
  : list (rendered image) :=
  match data with
  | JDict entries =>
      for_items
        (fun key value =>
           match value with
           | JDict _ =>
               if negb (PyStr.eqb key (u "indication")) then
                 if PyStr.eqb key (u "administration") then
                   open_block_soft (label_ru key)
                   ++ render_structured value (level + 1) key
                   ++ close_block
                 else
                   subtitle key ++ render_structured value (level + 1) key
               else render_structured value (level + 1) key
           | JList items =>
               (if PyStr.eqb key (u "dosage") then
                  [Shown (Markdown (u "<hr style='border:none; border-top:1px solid #e5e7eb; margin:6px 0 8px 0;'>")
                                   true)]
                else [])
               ++ subtitle key
               ++ match items with
                  | [] => [Shown (Caption (u "Пусто"))]
                  | _ =>
                      for_enumerate
                        (fun idx item =>
                           match item with
                           | JScalar v =>
                               [Shown (Markdown (u "- " ++ py_str v) false)]
                           | _ =>
                               open_block (scheme_title idx)
                               ++ render_structured item (level + 1) key
                               ++ close_block
                           end)
                        1 items
                  end
           | JScalar v => map Shown (render_scalar_line key v)
           end)
        entries
  | JList items =>
      for_enumerate
        (fun idx item =>
           open_block (scheme_title idx)
           ++ render_structured item (level + 1) parent_key
           ++ close_block)
        1 items
  | JScalar v => [Written v]
  end.

(** An element that opens a block, and the one that closes a block. *)
Definition opens_block (r : rendered image) : bool :=
  match r with
  | Shown (Markdown body true) => startswith block_style body
  | _ => false
  end.

Definition closes_block (r : rendered image) : bool :=
  match r with
  | Shown (Markdown body true) => PyStr.eqb body (u "</div>")
  | _ => false
  end.

(** The number of blocks open after [out], from [depth] open blocks;
    [None] when a block is closed that was not opened. *)
Fixpoint block_depth (depth : nat) (out : list (rendered image))
  : option nat :=
  match out with
  | [] => Some depth
  | r :: out' =>
      if closes_block r then
        match depth with
        | O => None
        | S d => block_depth d out'
        end
      else if opens_block r then block_depth (S depth) out'
      else block_depth depth out'
  end.

End Structured.

(** The click on one button only. *)
Definition only_click (key : str) : str -> bool := fun k => PyStr.eqb k key.

(** A small record: a scalar, a blank entry, a list and a nested
    dictionary. *)
Definition sample_record : json :=
  JDict [ (u "dose", JScalar (SInt 5));
          (u "unit", JScalar (SStr (u "  ")));
          (u "dosage", JList [JDict [(u "courseDuration",
                                      JScalar (SStr (u "P2W")))];
                              JScalar (SStr (u "note"))]);
          (u "administration", JDict [(u "food", JScalar SNone)]) ].

(** The same environment with another rasteriser. *)
Definition with_rasteriser (W : World)
    (conv : str -> Z -> Z -> Z -> str -> result (list (@image W))) : World :=
  {| image := @image W;
     pdftotext := @pdftotext W;
     pdfinfo := @pdfinfo W;
     convert_from_path := conv;
     path_exists := @path_exists W;
     uri_quote := @uri_quote W |}.

(** * Properties *)

(** ** Strings *)

Section StringFacts.

Lemma eqb_eq (a b : str) : PyStr.eqb a b = true <-> a = b.
Proof.
  revert b; induction a as [|x a IH]; intros [|y b]; simpl;
    try (split; [discriminate | discriminate]); try tauto.
  rewrite andb_true_iff, N.eqb_eq, IH.
  split; [intros [-> ->]; reflexivity | intros E; inversion E; auto].
Qed.

Lemma eqb_refl (a : str) : PyStr.eqb a a = true.
Proof. apply eqb_eq; reflexivity. Qed.

Lemma eqb_neq (a b : str) : PyStr.eqb a b = false <-> a <> b.
Proof.
  rewrite <- eqb_eq. destruct (PyStr.eqb a b); split; congruence.
Qed.

Lemma lstrip_idem (s : str) : lstrip (lstrip s) = lstrip s.
Proof.
  induction s as [|c s IH]; simpl; auto.
  destruct (is_space c) eqn:E; auto. simpl; rewrite E; reflexivity.
Qed.

Lemma lstrip_snoc (s : str) (c : char) :
  is_space c = false -> lstrip (s ++ [c]) = lstrip s ++ [c].
Proof.
  intros Hc. induction s as [|x s IH]; simpl.
  - rewrite Hc; reflexivity.
  - destruct (is_space x); auto.
Qed.

Lemma rstrip_cons (c : char) (s : str) :
  is_space c = false -> rstrip (c :: s) = c :: rstrip s.
Proof.
  intros Hc. unfold rstrip. simpl rev at 2.
  rewrite lstrip_snoc by exact Hc. rewrite rev_app_distr. reflexivity.
Qed.

Lemma rstrip_idem (s : str) : rstrip (rstrip s) = rstrip s.
Proof.
  unfold rstrip. rewrite rev_involutive, lstrip_idem. reflexivity.
Qed.

(** The result of [lstrip] is empty or starts with a character that is
    not white space. *)
Lemma lstrip_head (s : str) :
  lstrip s = [] \/ exists c t, lstrip s = c :: t /\ is_space c = false.
Proof.
  induction s as [|c s IH]; simpl; auto.
  destruct (is_space c) eqn:E; auto. right; eauto.
Qed.

Lemma strip_cons (c : char) (s : str) :
  is_space c = false -> strip (c :: s) = c :: rstrip s.
Proof.
  intros Hc. unfold strip. simpl. rewrite Hc. apply rstrip_cons, Hc.
Qed.

Lemma strip_idem (s : str) : strip (strip s) = strip s.
Proof.
  unfold strip at 2 3.
  destruct (lstrip_head s) as [E | (c & t & E & Hc)]; rewrite E.
  - reflexivity.
  - rewrite rstrip_cons by exact Hc. rewrite strip_cons by exact Hc.
    rewrite rstrip_idem. reflexivity.
Qed.

Lemma lstrip_nil_iff (s : str) : lstrip s = [] <-> forallb is_space s = true.
Proof.
  induction s as [|c s IH]; simpl; [tauto|].
  destruct (is_space c); simpl; [exact IH | split; discriminate].
Qed.

(** A string strips to nothing exactly when it is white space only. *)
Lemma strip_nil_iff (s : str) : strip s = [] <-> forallb is_space s = true.
Proof.
  rewrite <- lstrip_nil_iff. unfold strip.
  destruct (lstrip_head s) as [E | (c & t & E & Hc)]; rewrite E.
  - split; reflexivity.
  - rewrite rstrip_cons by exact Hc. split; discriminate.
Qed.

Lemma split_not_nil (sep : char) (s : str) : split sep s <> [].
Proof.
  induction s as [|c s IH]; simpl; [discriminate|].
  destruct (c =? sep)%N; [discriminate|].
  destruct (split sep s); [contradiction | discriminate].
Qed.

Lemma split_no_sep (sep : char) (s : str) :
  ~ In sep s -> split sep s = [s].
Proof.
  induction s as [|c s IH]; simpl; intros H; [reflexivity|].
  destruct (N.eqb_spec c sep) as [E|E]; [exfalso; auto|].
  rewrite IH by tauto. reflexivity.
Qed.

Lemma split_app_sep (sep : char) (s t : str) :
  ~ In sep s -> split sep (s ++ sep :: t) = s :: split sep t.
Proof.
  induction s as [|c s IH]; simpl; intros H.
  - rewrite N.eqb_refl. reflexivity.
  - destruct (N.eqb_spec c sep) as [E|E]; [exfalso; auto|].
    rewrite IH by tauto. reflexivity.
Qed.

(** Splitting undoes joining, for pieces that do not hold the separator. *)
Lemma split_join (sep : char) (segs : list str) :
  segs <> [] -> Forall (fun s => ~ In sep s) segs ->
  split sep (join [sep] segs) = segs.
Proof.
  induction segs as [|s segs IH]; intros Hne Hall; [contradiction|].
  inversion Hall as [|? ? Hs Hrest]; subst.
  destruct segs as [|s2 segs].
  - simpl. apply split_no_sep, Hs.
  - change (join [sep] (s :: s2 :: segs))
      with (s ++ sep :: join [sep] (s2 :: segs)).
    rewrite split_app_sep by exact Hs.
    rewrite IH; [reflexivity | discriminate | exact Hrest].
Qed.

Lemma leb_refl (a : str) : leb a a = true.
Proof.
  induction a as [|x a IH]; simpl; auto.
  rewrite N.eqb_refl, IH, orb_true_r. reflexivity.
Qed.

Lemma leb_total (a b : str) : leb a b = false -> leb b a = true.
Proof.
  revert b; induction a as [|x a IH]; intros [|y b]; simpl; auto;
    try discriminate.
  destruct (N.ltb_spec x y), (N.eqb_spec x y), (N.ltb_spec y x),
    (N.eqb_spec y x); simpl; auto; try discriminate; try lia.
Qed.

Lemma leb_trans (a b c : str) :
  leb a b = true -> leb b c = true -> leb a c = true.
Proof.
  revert b c; induction a as [|x a IH]; intros [|y b] [|z c]; simpl; auto;
    try discriminate.
  destruct (N.ltb_spec x y), (N.eqb_spec x y), (N.ltb_spec y z),
    (N.eqb_spec y z), (N.ltb_spec x z), (N.eqb_spec x z);
    simpl; auto; try discriminate; try lia.
  apply IH.
Qed.

Lemma leb_antisym (a b : str) :
  leb a b = true -> leb b a = true -> a = b.
Proof.
  revert b; induction a as [|x a IH]; intros [|y b]; simpl; auto;
    try discriminate.
  destruct (N.ltb_spec x y), (N.eqb_spec x y), (N.ltb_spec y x),
    (N.eqb_spec y x); simpl; try discriminate; try lia.
  intros H1 H2. subst. f_equal. auto.
Qed.

Lemma str_of_N_head (n : N) : head_digit (str_of_N n).
Proof.
  unfold str_of_N. destruct (N.to_uint n); simpl; lia.
Qed.

End StringFacts.

(** ** Duration humanizer *)

Section HumanizeFacts.
Context {U : Unicode}.
Local Open Scope N_scope.

Lemma span_digits_app (ds : str) (c : char) (rest : str) :
  forallb is_digit ds = true -> is_digit c = false ->
  span_digits (ds ++ c :: rest) = (ds, c :: rest).
Proof.
  intros Hds Hc. induction ds as [|d ds IH]; simpl in *.
  - rewrite Hc. reflexivity.
  - apply andb_true_iff in Hds as [Hd Hds]. rewrite Hd, IH by exact Hds.
    reflexivity.
Qed.

Lemma span_digits_sound (s ds tl : str) :
  span_digits s = (ds, tl) -> s = ds ++ tl /\ forallb is_digit ds = true.
Proof.
  revert ds tl; induction s as [|c s IH]; simpl; intros ds tl E.
  - inversion E; auto.
  - destruct (is_digit c) eqn:Hc.
    + destruct (span_digits s) as [ds' tl'] eqn:E'. inversion E; subst.
      destruct (IH _ _ eq_refl) as [-> H]. simpl. rewrite Hc, H. auto.
    + inversion E; auto.
Qed.

(** A group that is there is taken. *)
Lemma opt_group_present (letter : char) (ds rest : str) :
  ds <> [] -> forallb is_digit ds = true -> is_digit letter = false ->
  opt_group letter (ds ++ letter :: rest) = (Some ds, rest).
Proof.
  intros Hne Hds Hl. unfold opt_group.
  rewrite span_digits_app by assumption.
  destruct ds; [contradiction|]. rewrite N.eqb_refl. reflexivity.
Qed.

(** Digits followed by another letter are left to the next group. *)
Lemma opt_group_other (letter other : char) (ds rest : str) :
  forallb is_digit ds = true -> is_digit other = false -> other <> letter ->
  opt_group letter (ds ++ other :: rest) = (None, ds ++ other :: rest).
Proof.
  intros Hds Ho Hneq. unfold opt_group.
  rewrite span_digits_app by assumption.
  destruct ds; [reflexivity|].
  destruct (N.eqb_spec other letter); [contradiction | reflexivity].
Qed.

Lemma opt_group_sound (letter : char) (s : str) (g : option str) (rest : str) :
  opt_group letter s = (g, rest) -> group_ok g /\ s = group_text g letter ++ rest.
Proof.
  unfold opt_group. destruct (span_digits s) as [ds tl] eqn:E.
  apply span_digits_sound in E as [-> Hds].
  destruct ds as [|d ds]; [intros H; inversion H; simpl; auto|].
  destruct tl as [|c tl]; [intros H; inversion H; simpl; auto|].
  destruct (N.eqb_spec c letter) as [->|]; intros H; inversion H; subst;
    simpl; auto.
  split; [split; [discriminate | exact Hds]|].
  rewrite <- app_assoc. reflexivity.
Qed.

(** The matcher accepts only the language of the pattern. *)
Lemma match_duration_sound (s : str) (gy gm gw gd : option str) :
  match_duration s = Some (gy, gm, gw, gd) -> duration_shape s gy gm gw gd.
Proof.
  unfold match_duration, duration_shape. destruct s as [|c s0]; [discriminate|].
  destruct (N.eqb_spec c 80) as [->|]; [|discriminate].
  destruct (opt_group 89 s0) as [y s1] eqn:E1.
  destruct (opt_group 77 s1) as [m s2] eqn:E2.
  destruct (opt_group 87 s2) as [w s3] eqn:E3.
  destruct (opt_group 68 s3) as [d s4] eqn:E4.
  destruct s4; [|discriminate]. intros H; inversion H; subst.
  apply opt_group_sound in E1 as [? ->], E2 as [? ->], E3 as [? ->],
    E4 as [? ->].
  rewrite app_nil_r. auto.
Qed.

Lemma is_digit_letter (c : char) :
  letters_not_digits U -> In c [89; 77; 87; 68]%N -> is_digit c = false.
Proof.
  intros H Hc. unfold is_digit. rewrite (H c Hc). reflexivity.
Qed.

(** The matcher accepts the whole language of the pattern, with the
    counts of the (only) way to read the string. *)
Lemma match_duration_complete (s : str) (gy gm gw gd : option str) :
  letters_not_digits U ->
  duration_shape s gy gm gw gd -> match_duration s = Some (gy, gm, gw, gd).
Proof.
  intros HU (Hy & Hm & Hw & Hd & ->).
  assert (H89 : is_digit 89 = false) by (apply is_digit_letter; simpl; auto).
  assert (H77 : is_digit 77 = false) by (apply is_digit_letter; simpl; auto).
  assert (H87 : is_digit 87 = false) by (apply is_digit_letter; simpl; auto).
  assert (H68 : is_digit 68 = false) by (apply is_digit_letter; simpl; auto).
  unfold match_duration. rewrite N.eqb_refl.
  destruct gy as [y|], gm as [m|], gw as [w|], gd as [d|]; simpl in *;
    repeat match goal with H : _ /\ _ |- _ => destruct H end;
    repeat rewrite <- app_assoc; simpl;
    repeat first
      [ rewrite opt_group_present by assumption
      | rewrite opt_group_other by (assumption || discriminate)
      | progress simpl ];
    rewrite ?app_nil_r;
    repeat first
      [ rewrite opt_group_present by assumption
      | rewrite opt_group_other by (assumption || discriminate)
      | progress simpl ];
    try reflexivity.
Qed.

Lemma head_digit_app (s t : str) : head_digit s -> head_digit (s ++ t).
Proof. destruct s; simpl; intros H; [contradiction | exact H]. Qed.

Lemma unit_part_head (count : N) (abbr : str) :
  Forall head_digit (unit_part count abbr).
Proof.
  unfold unit_part. destruct (count =? 0); constructor; [|constructor].
  apply head_digit_app, str_of_N_head.
Qed.

Lemma join_head (sep p : str) (parts : list str) :
  head_digit p -> head_digit (join sep (p :: parts)).
Proof.
  intros H. destruct parts; simpl; [exact H | apply head_digit_app, H].
Qed.

Lemma digit_cases (c : char) :
  48 <= c <= 57 ->
  c = 48 \/ c = 49 \/ c = 50 \/ c = 51 \/ c = 52 \/ c = 53 \/ c = 54
  \/ c = 55 \/ c = 56 \/ c = 57.
Proof. lia. Qed.

(** A text that starts with an ASCII digit is no duration: it does not
    start with [P], also after stripping. *)
Lemma head_digit_no_match (s : str) :
  head_digit s -> match_duration (strip s) = None.
Proof.
  destruct s as [|c t]; simpl; [contradiction|]. intros H.
  assert (Hs : is_space c = false /\ (c =? 80) = false).
  { apply digit_cases in H.
    repeat (destruct H as [H|H]; [subst c; split; reflexivity|]).
    subst c; split; reflexivity. }
  destruct Hs as [Hs HP]. rewrite strip_cons by exact Hs.
  unfold match_duration. rewrite HP. reflexivity.
Qed.

Lemma humanize_head_digit (s : str) :
  head_digit s -> humanize_iso_duration s = s.
Proof.
  intros H. unfold humanize_iso_duration.
  rewrite head_digit_no_match by exact H. reflexivity.
Qed.

(** The humanizer returns its argument or a text that starts with a
    count. *)
Lemma humanize_cases (value : str) :
  humanize_iso_duration value = value
  \/ head_digit (humanize_iso_duration value).
Proof.
  unfold humanize_iso_duration.
  destruct (match_duration (strip value)) as [[[[gy gm] gw] gd]|]; auto.
  match goal with
  | |- context [match ?l with [] => _ | _ :: _ => _ end] =>
      assert (Hall : Forall head_digit l)
        by (apply Forall_app; split; [apply unit_part_head|];
            apply Forall_app; split; [apply unit_part_head|];
            apply Forall_app; split; apply unit_part_head);
      destruct l as [|p parts]; auto
  end.
  right. inversion Hall; subst. apply join_head; assumption.
Qed.

Lemma units_agree (gy gm gw gd : option str) :
  unit_part (group_int gy) abbr_years ++ unit_part (group_int gm) abbr_months
  ++ unit_part (group_int gw) abbr_weeks ++ unit_part (group_int gd) abbr_days
  = spec_nonzero_units gy gm gw gd.
Proof.
  unfold spec_nonzero_units, duration_units, unit_part, group_int.
  cbn [flat_map fst snd]. rewrite app_nil_r.
  destruct gy, gm, gw, gd; cbn [N.eqb]; reflexivity.
Qed.

Lemma basic_letters_not_digits : letters_not_digits basic_unicode.
Proof.
  intros c H. simpl in H.
  repeat (destruct H as [<-|H]; [reflexivity|]). contradiction.
Defined.

End HumanizeFacts.

(** C4 (as amended): when the stripped text is in the duration subset,
    the humanizer gives, in the order years, months, weeks, days and
    joined by single spaces, every unit whose count is present and not
    zero, as the count in decimal followed by its abbreviation; it
    returns the text unchanged when no count is left (all absent or
    zero) and when the stripped text is not in the subset. *)
Theorem humanize_iso_duration_units {U : Unicode} (value : str) :
  letters_not_digits U ->
  (forall gy gm gw gd, duration_shape (strip value) gy gm gw gd ->
     humanize_iso_duration value =
       match spec_nonzero_units gy gm gw gd with
       | [] => value
       | parts => join [32%N] parts
       end)
  /\ ((forall gy gm gw gd, ~ duration_shape (strip value) gy gm gw gd) ->
      humanize_iso_duration value = value).
Proof.
  intros HU. split.
  - intros gy gm gw gd Hshape. unfold humanize_iso_duration.
    rewrite (match_duration_complete HU Hshape), units_agree.
    destruct (spec_nonzero_units gy gm gw gd); reflexivity.
  - intros Hno. unfold humanize_iso_duration.
    destruct (match_duration (strip value)) as [[[[gy gm] gw] gd]|] eqn:E;
      [|reflexivity].
    apply match_duration_sound in E. exfalso. exact (Hno _ _ _ _ E).
Qed.

Lemma humanize_iso_duration_units_witness :
  letters_not_digits basic_unicode
  /\ @humanize_iso_duration basic_unicode (u " P1Y0M3D ") = u "1 г. 3 дн.".
Proof.
  split; [exact basic_letters_not_digits|].
  destruct (@humanize_iso_duration_units basic_unicode (u " P1Y0M3D ")
              basic_letters_not_digits) as [H _].
  rewrite (H (Some (u "1")) (Some (u "0")) None (Some (u "3"))).
  - vm_compute. reflexivity.
  - vm_compute. repeat split; discriminate.
Defined.

(** C4 (as stated) fails: in [P0Y3M] the count of years is present, yet
    the output has no years; the statement asks for [0 г. 3 мес.]. *)
Lemma humanize_iso_duration_zero_count :
  @duration_shape basic_unicode (u "P0Y3M") (Some (u "0")) (Some (u "3"))
                  None None
  /\ @humanize_iso_duration basic_unicode (u "P0Y3M") = u "3 мес."
  /\ join [32%N]
       (@spec_present_units basic_unicode (Some (u "0")) (Some (u "3"))
                            None None)
     = u "0 г. 3 мес."
  /\ @humanize_iso_duration basic_unicode (u "P0Y3M")
     <> join [32%N]
          (@spec_present_units basic_unicode (Some (u "0")) (Some (u "3"))
                               None None).
Proof.
  vm_compute. repeat split; discriminate.
Qed.

(** C10: the humanizer is idempotent on every string: what it returns
    is its argument, or a text that does not match the duration pattern
    and is therefore returned unchanged. *)
Theorem humanize_iso_duration_idempotent {U : Unicode} (value : str) :
  humanize_iso_duration (humanize_iso_duration value)
  = humanize_iso_duration value
  /\ (humanize_iso_duration value = value
      \/ match_duration (strip (humanize_iso_duration value)) = None).
Proof.
  destruct (humanize_cases value) as [H|H]; split.
  - rewrite H. exact H.
  - left. exact H.
  - apply humanize_head_digit, H.
  - right. apply head_digit_no_match, H.
Qed.

(** ** Tags *)

Lemma blank_filter_agree (p : str) :
  negb (is_empty (strip p)) = negb (forallb is_space p).
Proof.
  f_equal. destruct (forallb is_space p) eqn:E.
  - apply strip_nil_iff in E. rewrite E. reflexivity.
  - destruct (strip p) eqn:E'; [|reflexivity].
    apply strip_nil_iff in E'. congruence.
Qed.

Lemma tag_parts_clean (raw_tags : str) :
  Forall (fun p => p <> [] /\ strip p = p) (tag_parts raw_tags).
Proof.
  unfold tag_parts. apply Forall_forall. intros p Hp.
  apply in_map_iff in Hp as (q & <- & Hq).
  apply filter_In in Hq as [_ Hq].
  split; [|apply strip_idem].
  destruct (strip q); [discriminate | discriminate].
Qed.

(** The items of [enumerate], by their positions. *)
Lemma map_enumerate {A B : Type} (f : nat * A -> B) (d : A) (l : list A) :
  forall start,
    map f (enumerate start l)
    = map (fun i => f (start + i, nth i l d)) (seq 0 (List.length l)).
Proof.
  induction l as [|x l IH]; intros start; [reflexivity|].
  cbn [enumerate List.length seq map nth]. rewrite Nat.add_0_r. f_equal.
  rewrite IH, <- seq_shift, map_map. apply map_ext. intros i.
  rewrite Nat.add_succ_r. reflexivity.
Qed.

Lemma tags_header (chips : str) :
  u "**" ++ label_ru (u "tags") ++ u ":**  " ++ chips
  = u "**Теги:**  " ++ chips.
Proof.
  vm_compute (u "**"). vm_compute (label_ru (u "tags")).
  vm_compute (u ":**  "). vm_compute (u "**Теги:**  "). reflexivity.
Qed.

Lemma chip_html_text (i : nat) (part : str) :
  chip_html (0 + i, part)
  = u "<span style='background:"
    ++ nth (i mod 5)
           [u "#E3F2FD"; u "#E8F5E9"; u "#FFF3E0"; u "#F3E5F5"; u "#E0F7FA"]
           []
    ++ u "; color:#111111; padding:4px 8px; border-radius:6px; margin-right:6px; display:inline-block; margin-bottom:6px;'>"
    ++ part ++ u "</span>".
Proof.
  assert (Hp : [u "#E3F2FD"; u "#E8F5E9"; u "#FFF3E0"; u "#F3E5F5";
                u "#E0F7FA"] = palette) by (vm_compute; reflexivity).
  rewrite Hp. unfold chip_html. cbn [Nat.add].
  change (List.length palette) with 5.
  vm_compute (u "; color:#111111; padding:4px 8px; border-radius:6px; ").
  vm_compute (u "margin-right:6px; display:inline-block; margin-bottom:6px;'>").
  vm_compute (u "; color:#111111; padding:4px 8px; border-radius:6px; margin-right:6px; display:inline-block; margin-bottom:6px;'>").
  do 2 f_equal.
Qed.

(** C5: the chips of a tag string are its segments between semicolons,
    stripped, in their order, the segments that are empty or white space
    only being dropped; they are displayed as one element that holds,
    after the label, one chip per segment in that order, the chip at
    position [i] being the segment in a span with the colour [i mod 5]
    of the palette; nothing is displayed when no segment is left; for
    [A; B ; ;C] the chips are [A], [B] and [C]. *)
Theorem render_tags_chips {image : Type} :
  (forall segs : list str,
      segs <> [] -> Forall (fun s => ~ In 59%N s) segs ->
      tag_parts (join [59%N] segs)
      = map strip (filter (fun s => negb (forallb is_space s)) segs))
  /\ (forall raw_tags,
         Forall (fun p => p <> [] /\ strip p = p) (tag_parts raw_tags))
  /\ (forall raw_tags,
         @render_tags image raw_tags =
           match tag_parts raw_tags with
           | [] => []
           | parts =>
               [Markdown (u "**" ++ label_ru (u "tags") ++ u ":**  "
                          ++ List.concat (map chip_html (enumerate 0 parts)))
                         true]
           end)
  /\ (forall idx part, exists before,
         chip_html (idx, part) = before ++ part ++ u "</span>")
  /\ tag_parts (u "A; B ; ;C") = [u "A"; u "B"; u "C"]
  /\ (forall raw_tags,
         @render_tags image raw_tags =
           match tag_parts raw_tags with
           | [] => []
           | parts =>
               [Markdown
                  (u "**Теги:**  "
                   ++ List.concat
                        (map (fun i =>
                                u "<span style='background:"
                                ++ nth (i mod 5)
                                       [u "#E3F2FD"; u "#E8F5E9"; u "#FFF3E0";
                                        u "#F3E5F5"; u "#E0F7FA"] []
                                ++ u "; color:#111111; padding:4px 8px; border-radius:6px; margin-right:6px; display:inline-block; margin-bottom:6px;'>"
                                ++ nth i parts [] ++ u "</span>")
                             (seq 0 (List.length parts))))
                  true]
           end)
  /\ @render_tags image (u "A; B ; ;C")
     = [Markdown (u "**Теги:**  <span style='background:#E3F2FD; color:#111111; padding:4px 8px; border-radius:6px; margin-right:6px; display:inline-block; margin-bottom:6px;'>A</span><span style='background:#E8F5E9; color:#111111; padding:4px 8px; border-radius:6px; margin-right:6px; display:inline-block; margin-bottom:6px;'>B</span><span style='background:#FFF3E0; color:#111111; padding:4px 8px; border-radius:6px; margin-right:6px; display:inline-block; margin-bottom:6px;'>C</span>") true].
Proof.
  split; [|split; [|split; [|split; [|split; [|split]]]]].
  - intros segs Hne Hall. unfold tag_parts.
    rewrite split_join by assumption. f_equal.
    apply filter_ext. intros p. apply blank_filter_agree.
  - apply tag_parts_clean.
  - intros raw_tags. unfold render_tags.
    destruct (tag_parts raw_tags); reflexivity.
  - intros idx part. unfold chip_html. eexists.
    rewrite !app_assoc. reflexivity.
  - vm_compute. reflexivity.
  - intros raw_tags. unfold render_tags.
    destruct (tag_parts raw_tags) as [|p parts]; [reflexivity|].
    rewrite (map_enumerate chip_html [] (p :: parts) 0), tags_header.
    apply (f_equal (fun body => [@Markdown image body true])).
    apply (f_equal (fun chips => u "**Теги:**  " ++ List.concat chips)).
    apply map_ext. intros i. apply chip_html_text.
  - vm_compute. reflexivity.
Qed.

Lemma render_tags_chips_witness :
  tag_parts (join [59%N] [u "A"; u " B "; u " "; u "C"])
  = [u "A"; u "B"; u "C"].
Proof.
  rewrite (proj1 (@render_tags_chips unit)).
  - vm_compute. reflexivity.
  - discriminate.
  - repeat constructor; vm_compute; intuition discriminate.
Defined.

(** ** Scalar lines *)

Lemma duration_key_cases (key : str) :
  In key duration_keys ->
  existsb (PyStr.eqb key) duration_keys = true
  /\ PyStr.eqb key (u "intervalUnit") = false.
Proof.
  intros H. split.
  - apply existsb_exists. exists key. split; [exact H | apply eqb_refl].
  - unfold duration_keys in H. simpl in H.
    destruct H as [<-|[<-|[<-|[]]]]; reflexivity.
Qed.

Lemma humanize_value_duration {U : Unicode} (key : str) (value : scalar) :
  In key duration_keys ->
  humanize_value key value
  = match value with
    | SStr s => SStr (humanize_iso_duration s)
    | _ => value
    end.
Proof.
  intros H. destruct (duration_key_cases H) as [He Hi].
  unfold humanize_value. rewrite He, Hi. destruct value; reflexivity.
Qed.

Lemma humanize_value_interval {U : Unicode} (value : scalar) :
  humanize_value (u "intervalUnit") value
  = if PyStr.eqb (u "DAY") (py_str value) then SStr (u "день")
    else if PyStr.eqb (u "WEEK") (py_str value) then SStr (u "неделя")
    else if PyStr.eqb (u "MONTH") (py_str value) then SStr (u "месяц")
    else if PyStr.eqb (u "YEAR") (py_str value) then SStr (u "год")
    else value.
Proof.
  unfold humanize_value.
  assert (He : existsb (PyStr.eqb (u "intervalUnit")) duration_keys = false)
    by (vm_compute; reflexivity).
  rewrite He, eqb_refl.
  assert (Hl : dict_lookup interval_units (py_str value)
               = if PyStr.eqb (u "DAY") (py_str value) then Some (u "день")
                 else if PyStr.eqb (u "WEEK") (py_str value)
                      then Some (u "неделя")
                 else if PyStr.eqb (u "MONTH") (py_str value)
                      then Some (u "месяц")
                 else if PyStr.eqb (u "YEAR") (py_str value)
                      then Some (u "год")
                 else None).
  { generalize (py_str value). intros text.
    vm_compute (u "DAY"). vm_compute (u "WEEK"). vm_compute (u "MONTH").
    vm_compute (u "YEAR"). vm_compute (u "день"). vm_compute (u "неделя").
    vm_compute (u "месяц"). vm_compute (u "год"). reflexivity. }
  assert (Hcase : forall v,
             match v, false with
             | SStr s, true => SStr (humanize_iso_duration s)
             | _, _ =>
                 match dict_lookup interval_units (py_str v) with
                 | Some word => SStr word
                 | None => v
                 end
             end
             = match dict_lookup interval_units (py_str v) with
               | Some word => SStr word
               | None => v
               end) by (intros []; reflexivity).
  rewrite Hcase, Hl.
  repeat match goal with
         | |- context [PyStr.eqb ?a ?b] => destruct (PyStr.eqb a b)
         end; reflexivity.
Qed.

(** C7 (as amended): a value that is [None] or a blank string gives no
    output; under a key other than [tags] any other scalar gives one
    line, label then value, the label being the localized label when the
    lookup has one and the key itself otherwise, the value being the
    humanized value; under the three duration keys the humanized value
    of a string is its humanized duration, under [intervalUnit] the
    humanized value of a value whose text is one of the four unit codes
    is the word for the unit, and everywhere else the humanized value is
    the value itself; under the key [tags] the value goes to the tag
    renderer. *)
Theorem render_scalar_line_spec {U : Unicode} {image : Type}
    (key : str) (value : scalar) :
  (value = SNone \/ is_blank value = true ->
     @render_scalar_line U image key value = [])
  /\ (value <> SNone -> is_blank value = false -> key <> u "tags" ->
      @render_scalar_line U image key value =
        [Markdown
           (scalar_line_html
              (match dict_lookup KEY_LABELS_RU key with
               | Some label => label
               | None => key
               end)
              (if PyStr.eqb key (u "schemaDescription")
               then u "dense-value-regular" else u "dense-value")
              (py_str (humanize_value key value)))
           true])
  /\ (value <> SNone -> is_blank value = false -> key = u "tags" ->
      @render_scalar_line U image key value = render_tags (py_str value))
  /\ (~ In key duration_keys -> key <> u "intervalUnit" ->
      humanize_value key value = value)
  /\ (forall label value_class text,
         scalar_line_html label value_class text
         = u "<div class='dense-line'><span class='dense-key'>" ++ label
           ++ u ":</span> <span class='" ++ value_class ++ u "'>" ++ text
           ++ u "</span></div>")
  /\ duration_keys
     = [u "courseDurationMin"; u "courseDurationMax"; u "courseDuration"]
  /\ (In key duration_keys ->
      humanize_value key value
      = match value with
        | SStr s => SStr (humanize_iso_duration s)
        | _ => value
        end)
  /\ (key = u "intervalUnit" ->
      humanize_value key value
      = if PyStr.eqb (u "DAY") (py_str value) then SStr (u "день")
        else if PyStr.eqb (u "WEEK") (py_str value) then SStr (u "неделя")
        else if PyStr.eqb (u "MONTH") (py_str value) then SStr (u "месяц")
        else if PyStr.eqb (u "YEAR") (py_str value) then SStr (u "год")
        else value)
  /\ @render_scalar_line basic_unicode image (u "courseDuration")
       (SStr (u "P2W"))
     = [Markdown (u "<div class='dense-line'><span class='dense-key'>Длительность курса:</span> <span class='dense-value'>2 нед.</span></div>")
                 true]
  /\ @render_scalar_line U image (u "intervalUnit") (SStr (u "WEEK"))
     = [Markdown (u "<div class='dense-line'><span class='dense-key'>Единица интервала:</span> <span class='dense-value'>неделя</span></div>")
                 true].
Proof.
  split; [|split; [|split; [|split; [|split; [|split; [|split;
    [|split; [|split]]]]]]]].
  - intros [-> | Hb]; [reflexivity|].
    unfold render_scalar_line. rewrite Hb. destruct value; reflexivity.
  - intros Hn Hb Hk. unfold render_scalar_line. rewrite Hb.
    apply eqb_neq in Hk. rewrite Hk.
    destruct value; [congruence | reflexivity ..].
  - intros Hn Hb ->. unfold render_scalar_line. rewrite Hb, eqb_refl.
    destruct value; [congruence | reflexivity ..].
  - intros Hd Hi. unfold humanize_value.
    apply eqb_neq in Hi. rewrite Hi.
    assert (E : existsb (PyStr.eqb key) duration_keys = false).
    { destruct (existsb (PyStr.eqb key) duration_keys) eqn:E; [|reflexivity].
      apply existsb_exists in E as (k & Hin & Hk).
      apply eqb_eq in Hk. subst k. contradiction. }
    rewrite E. destruct value; reflexivity.
  - intros label value_class text. unfold scalar_line_html.
    vm_compute (u "<div class='dense-line'>").
    vm_compute (u "<span class='dense-key'>").
    vm_compute (u "<div class='dense-line'><span class='dense-key'>").
    vm_compute (u "</span>"). vm_compute (u "</div>").
    vm_compute (u "</span></div>").
    cbn [app]. reflexivity.
  - vm_compute. reflexivity.
  - apply humanize_value_duration.
  - intros ->. apply humanize_value_interval.
  - vm_compute. reflexivity.
  - unfold render_scalar_line. cbn [is_blank].
    assert (Hb : is_empty (strip (u "WEEK")) = false)
      by (vm_compute; reflexivity).
    assert (Ht : PyStr.eqb (u "intervalUnit") (u "tags") = false)
      by (vm_compute; reflexivity).
    assert (Hs : PyStr.eqb (u "intervalUnit") (u "schemaDescription") = false)
      by (vm_compute; reflexivity).
    rewrite Hb, Ht, Hs, humanize_value_interval.
    vm_compute. reflexivity.
Qed.

Lemma render_scalar_line_spec_witness :
  @render_scalar_line basic_unicode unit (u "dose") (SInt 5)
  = [Markdown (scalar_line_html (u "Доза") (u "dense-value") (u "5")) true].
Proof.
  rewrite (proj1 (proj2 (@render_scalar_line_spec basic_unicode unit
                           (u "dose") (SInt 5)))).
  - vm_compute. reflexivity.
  - discriminate.
  - reflexivity.
  - vm_compute. discriminate.
Defined.

(** C7 (as stated) fails: under the key [tags] the value [;] is not
    blank, and no line is produced. *)
Lemma render_scalar_line_tags_no_line :
  SStr (u ";") <> SNone
  /\ is_blank (SStr (u ";")) = false
  /\ @render_scalar_line basic_unicode unit (u "tags") (SStr (u ";")) = [].
Proof.
  vm_compute. repeat split; discriminate.
Qed.

(** ** Selection list *)

Section ListingFacts.
Context {U : Unicode}.

Lemma insert_sorted_perm (x : str) (l : list str) :
  Permutation (insert_sorted x l) (x :: l).
Proof.
  induction l as [|y l IH]; simpl; [reflexivity|].
  destruct (leb x y); [reflexivity|].
  rewrite IH. apply perm_swap.
Qed.

Lemma sorted_perm (l : list str) : Permutation (sorted l) l.
Proof.
  induction l as [|x l IH]; simpl; [reflexivity|].
  rewrite insert_sorted_perm. constructor. exact IH.
Qed.

Lemma insert_sorted_sorted (x : str) (l : list str) :
  StronglySorted str_le l -> StronglySorted str_le (insert_sorted x l).
Proof.
  induction 1 as [|y l Hl IH Hy]; simpl.
  - repeat constructor.
  - destruct (leb x y) eqn:E.
    + constructor; [constructor; assumption|].
      constructor; [exact E|].
      eapply Forall_impl; [|exact Hy]. intros z Hz.
      exact (leb_trans _ _ _ E Hz).
    + constructor; [exact IH|].
      eapply Permutation_Forall; [symmetry; apply insert_sorted_perm|].
      constructor; [apply leb_total, E | exact Hy].
Qed.

Lemma sorted_sorted (l : list str) : StronglySorted str_le (sorted l).
Proof.
  induction l as [|x l IH]; simpl; [constructor|].
  apply insert_sorted_sorted, IH.
Qed.

(** There is one sorted arrangement of a list of names. *)
Lemma sorted_unique (l1 l2 : list str) :
  StronglySorted str_le l1 -> StronglySorted str_le l2 ->
  Permutation l1 l2 -> l1 = l2.
Proof.
  intros H1; revert l2; induction H1 as [|x l1 Hl1 IH Hx]; intros l2 H2 HP.
  - apply Permutation_nil in HP. auto.
  - destruct H2 as [|y l2 Hl2 Hy].
    + apply Permutation_sym, Permutation_nil in HP. discriminate.
    + assert (E : x = y).
      { assert (Hyx : In y (x :: l1))
          by (eapply Permutation_in; [symmetry; exact HP | left; auto]).
        assert (Hxy : In x (y :: l2))
          by (eapply Permutation_in; [exact HP | left; auto]).
        destruct Hyx as [->|Hyx]; [reflexivity|].
        destruct Hxy as [->|Hxy]; [reflexivity|].
        apply leb_antisym.
        - exact (proj1 (Forall_forall _ _) Hx _ Hyx).
        - exact (proj1 (Forall_forall _ _) Hy _ Hxy). }
      subst y. f_equal. apply IH; [exact Hl2|].
      eapply Permutation_cons_inv; exact HP.
Qed.

Lemma strongly_sorted_app_inv (l1 l2 : list str) :
  StronglySorted str_le (l1 ++ l2) ->
  StronglySorted str_le l1 /\ StronglySorted str_le l2.
Proof.
  induction l1 as [|x l1 IH]; simpl; intros H; [split; [constructor | exact H]|].
  inversion H as [|? ? Hs Hx]; subst. destruct (IH Hs) as [H1 H2].
  split; [|exact H2]. constructor; [exact H1|].
  apply Forall_app in Hx. tauto.
Qed.

Lemma strongly_sorted_filter (f : str -> bool) (l : list str) :
  StronglySorted str_le l -> StronglySorted str_le (filter f l).
Proof.
  induction 1 as [|x l Hl IH Hx]; simpl; [constructor|].
  destruct (f x); [|exact IH]. constructor; [exact IH|].
  apply Forall_forall. intros y Hy. apply filter_In in Hy as [Hy _].
  exact (proj1 (Forall_forall _ _) Hx _ Hy).
Qed.

(** The loop on names of which none is protected. *)
Lemma keep_loop_plain (files acc : list str) (kept : bool) :
  Forall (fun n => is_prednisolone n = false) files ->
  fold_left keep_step files (acc, kept) = (acc ++ files, kept).
Proof.
  revert acc; induction files as [|n files IH]; intros acc H; simpl.
  - rewrite app_nil_r. reflexivity.
  - inversion H as [|? ? Hn Hrest]; subst. rewrite Hn, IH by exact Hrest.
    rewrite <- app_assoc. reflexivity.
Qed.

(** The loop once a protected name has been kept. *)
Lemma keep_loop_after (files acc : list str) :
  fold_left keep_step files (acc, true)
  = (acc ++ filter (fun n => negb (is_prednisolone n)) files, true).
Proof.
  revert acc; induction files as [|n files IH]; intros acc; simpl.
  - rewrite app_nil_r. reflexivity.
  - destruct (is_prednisolone n); simpl; rewrite IH; [reflexivity|].
    rewrite <- app_assoc. reflexivity.
Qed.

(** The loop up to and after the first protected name. *)
Lemma keep_loop_first (pre post : list str) (x : str) :
  Forall (fun n => is_prednisolone n = false) pre ->
  is_prednisolone x = true ->
  fold_left keep_step (pre ++ x :: post) ([], false)
  = (pre ++ x :: filter (fun n => negb (is_prednisolone n)) post, true).
Proof.
  intros Hpre Hx. rewrite fold_left_app, keep_loop_plain by exact Hpre.
  simpl. rewrite Hx, keep_loop_after. rewrite <- app_assoc. reflexivity.
Qed.

(** A list has no protected name or a first one. *)
Lemma first_protected (files : list str) :
  Forall (fun n => is_prednisolone n = false) files
  \/ exists pre x post,
       files = pre ++ x :: post
       /\ Forall (fun n => is_prednisolone n = false) pre
       /\ is_prednisolone x = true.
Proof.
  induction files as [|n files IH]; [left; constructor|].
  destruct (is_prednisolone n) eqn:E.
  - right. exists [], n, files. repeat split; [constructor | exact E].
  - destruct IH as [IH | (pre & x & post & -> & Hpre & Hx)].
    + left. constructor; assumption.
    + right. exists (n :: pre), x, post.
      repeat split; [constructor; assumption | exact Hx].
Qed.

Lemma filter_none (f : str -> bool) (l : list str) :
  Forall (fun n => f n = false) l -> filter f l = [].
Proof.
  induction 1 as [|x l Hx Hl IH]; simpl; [reflexivity|].
  rewrite Hx. exact IH.
Qed.

Lemma filter_all (f : str -> bool) (l : list str) :
  Forall (fun n => f n = true) l -> filter f l = l.
Proof.
  induction 1 as [|x l Hx Hl IH]; simpl; [reflexivity|].
  rewrite Hx, IH. reflexivity.
Qed.

Lemma filter_filter_none (f : str -> bool) (l : list str) :
  filter f (filter (fun n => negb (f n)) l) = [].
Proof.
  apply filter_none, Forall_forall. intros n Hn.
  apply filter_In in Hn as [_ Hn]. destruct (f n); [discriminate | reflexivity].
Qed.

Lemma filter_negb_idem (f : str -> bool) (l : list str) :
  filter (fun n => negb (f n)) (filter (fun n => negb (f n)) l)
  = filter (fun n => negb (f n)) l.
Proof.
  apply filter_all, Forall_forall. intros n Hn.
  apply filter_In in Hn as [_ Hn]. exact Hn.
Qed.

End ListingFacts.

Section ListingTheorem.
Context {U : Unicode}.

Lemma strongly_sorted_drop (f : str -> bool) (pre post : list str) (x : str) :
  StronglySorted str_le (pre ++ x :: post) ->
  StronglySorted str_le (pre ++ x :: filter f post).
Proof.
  induction pre as [|y pre IH]; simpl; intros H;
    inversion H as [|? ? Hs Hall]; subst.
  - constructor; [apply strongly_sorted_filter, Hs|].
    apply Forall_forall. intros z Hz. apply filter_In in Hz as [Hz _].
    exact (proj1 (Forall_forall _ _) Hall _ Hz).
  - constructor; [apply IH, Hs|].
    apply Forall_forall. intros z Hz.
    apply (proj1 (Forall_forall _ _) Hall).
    apply in_app_iff in Hz as [Hz | [Hz | Hz]];
      apply in_app_iff; [left; exact Hz | right; left; exact Hz|].
    right; right. apply filter_In in Hz. tauto.
Qed.

(** The names kept, from the sorted candidates. *)
Lemma kept_cases (files : list str) :
  (Forall (fun n => is_prednisolone n = false) files
   /\ fst (fold_left keep_step files ([], false)) = files)
  \/ exists pre x post,
       files = pre ++ x :: post
       /\ Forall (fun n => is_prednisolone n = false) pre
       /\ is_prednisolone x = true
       /\ fst (fold_left keep_step files ([], false))
          = pre ++ x :: filter (fun n => negb (is_prednisolone n)) post.
Proof.
  destruct (first_protected files) as [H | (pre & x & post & -> & Hpre & Hx)].
  - left. split; [exact H|]. rewrite keep_loop_plain by exact H. reflexivity.
  - right. exists pre, x, post. repeat split; try assumption.
    rewrite keep_loop_first by assumption. reflexivity.
Qed.

Lemma negb_filter_plain (l : list str) :
  Forall (fun n => is_prednisolone n = false) l ->
  filter (fun n => negb (is_prednisolone n)) l = l.
Proof.
  intros H. apply filter_all. eapply Forall_impl; [|exact H].
  simpl. intros n ->. reflexivity.
Qed.

Lemma first_protected_unique (pre pre' post post' : list str) (x x' : str) :
  pre ++ x :: post = pre' ++ x' :: post' ->
  Forall (fun n => is_prednisolone n = false) pre ->
  is_prednisolone x = true ->
  Forall (fun n => is_prednisolone n = false) pre' ->
  is_prednisolone x' = true ->
  pre = pre' /\ x = x' /\ post = post'.
Proof.
  revert pre'. induction pre as [|p pre IH]; intros [|p' pre'] Eq Hpre Hx Hpre' Hx';
    simpl in Eq; inversion Eq; subst.
  - auto.
  - inversion Hpre' as [|? ? Hp _]; subst. congruence.
  - inversion Hpre as [|? ? Hp _]; subst. congruence.
  - inversion Hpre as [|? ? _ Hrest]; inversion Hpre' as [|? ? _ Hrest']; subst.
    match goal with E : pre ++ _ = pre' ++ _ |- _ =>
      destruct (IH _ E Hrest Hx Hrest' Hx') as (-> & -> & ->) end.
    auto.
Qed.

End ListingTheorem.

(** C6: the selection list is made from the names of the JSON files that
    do not start with an underscore, sorted; it keeps their order, keeps
    every name without the protected substring and, of the names that
    hold it in any letter case, the first one only; of two such names
    and one other name it keeps the first of the two and the other. *)
Theorem list_result_files_spec {U : Unicode} (entries : list str) :
  let files :=
    sorted (filter (fun name => negb (startswith [95%N] name))
                   (glob_json entries)) in
  let kept := list_result_files (Some entries) in
  (StronglySorted str_le files
   /\ forall n, In n files <->
                In n entries /\ endswith json_suffix n = true
                /\ startswith [95%N] n = false)
  /\ StronglySorted str_le kept
  /\ (forall n, In n kept -> In n files)
  /\ List.length (filter is_prednisolone kept) <= 1
  /\ filter (fun n => negb (is_prednisolone n)) kept
     = filter (fun n => negb (is_prednisolone n)) files
  /\ (forall pre x post,
         files = pre ++ x :: post ->
         Forall (fun n => is_prednisolone n = false) pre ->
         is_prednisolone x = true ->
         kept = pre ++ x :: filter (fun n => negb (is_prednisolone n)) post)
  /\ (Forall (fun n => is_prednisolone n = false) files -> kept = files)
  /\ (forall a b c,
         Permutation entries [a; b; c] ->
         Forall (fun n => endswith json_suffix n = true
                          /\ startswith [95%N] n = false) [a; b; c] ->
         is_prednisolone a = true -> is_prednisolone b = true ->
         is_prednisolone c = false -> leb a b = true ->
         kept = sorted [a; c]).
Proof.
  intros files kept.
  assert (Hsorted : StronglySorted str_le files) by apply sorted_sorted.
  assert (Hkept : kept = fst (fold_left keep_step files ([], false)))
    by reflexivity.
  split; [split; [exact Hsorted|]|].
  { intros n. unfold files, glob_json. split.
    - intros H. apply (Permutation_in _ (sorted_perm _)) in H.
      apply filter_In in H as [H Hu]. apply filter_In in H as [H Hj].
      repeat split; try assumption. destruct (startswith [95%N] n);
        [discriminate | reflexivity].
    - intros (H & Hj & Hu).
      apply (Permutation_in _ (Permutation_sym (sorted_perm _))).
      apply filter_In. split; [apply filter_In; auto|]. rewrite Hu; reflexivity. }
  destruct (kept_cases files)
    as [[Hplain E] | (pre & x & post & Efiles & Hpre & Hx & E)];
    rewrite <- Hkept in E.
  - (* no protected name *)
    rewrite E. repeat split; auto.
    + rewrite filter_none by exact Hplain. simpl. lia.
    + intros pre x post Efiles Hpre Hx. exfalso.
      rewrite Efiles in Hplain. apply Forall_app in Hplain as [_ Hplain].
      inversion Hplain; subst. congruence.
    + intros a b c HP Hvalid Ha _ _ _. exfalso.
      assert (Hin : In a files).
      { unfold files.
        apply (Permutation_in _ (Permutation_sym (sorted_perm _))).
        inversion Hvalid as [|? ? [Hj Hu] _]; subst.
        apply filter_In. split; [apply filter_In; split; [|exact Hj]|].
        - apply (Permutation_in _ (Permutation_sym HP)). left; reflexivity.
        - rewrite Hu; reflexivity. }
      pose proof (proj1 (Forall_forall _ _) Hplain _ Hin). congruence.
  - (* a first protected name *)
    rewrite E. split; [|split; [|split; [|split; [|split; [|split]]]]].
    + rewrite Efiles in Hsorted. apply strongly_sorted_drop, Hsorted.
    + intros n Hn. rewrite Efiles. apply in_app_iff.
      apply in_app_iff in Hn as [Hn | [Hn | Hn]]; auto.
      * right; left; exact Hn.
      * right; right. apply filter_In in Hn. tauto.
    + rewrite filter_app. simpl. rewrite Hx.
      rewrite (filter_none _ Hpre), filter_filter_none. simpl. lia.
    + rewrite Efiles, !filter_app. simpl. rewrite Hx. simpl.
      rewrite filter_negb_idem. reflexivity.
    + intros pre' x' post' Efiles' Hpre' Hx'.
      assert (Eq : pre = pre' /\ x = x' /\ post = post').
      { rewrite Efiles in Efiles'.
        exact (first_protected_unique _ _ _ _ Efiles' Hpre Hx Hpre' Hx'). }
      destruct Eq as (<- & <- & <-). reflexivity.
    + intros Hplain. exfalso. rewrite Efiles in Hplain.
      apply Forall_app in Hplain as [_ Hplain]. inversion Hplain; congruence.
    + intros a b c HP Hvalid Ha Hb Hc Hab.
      assert (Hfiles : files = sorted [a; b; c]).
      { apply sorted_unique; try apply sorted_sorted.
        unfold files. rewrite !sorted_perm. unfold glob_json.
        rewrite !filter_all; [exact HP | |].
        - eapply Permutation_Forall; [symmetry; exact HP|].
          eapply Forall_impl; [|exact Hvalid]. simpl. tauto.
        - rewrite filter_all.
          + eapply Permutation_Forall; [symmetry; exact HP|].
            eapply Forall_impl; [|exact Hvalid]. simpl.
            intros n [_ ->]. reflexivity.
          + eapply Permutation_Forall; [symmetry; exact HP|].
            eapply Forall_impl; [|exact Hvalid]. simpl. tauto. }
      rewrite <- E, Hkept, Hfiles. unfold sorted. simpl.
      destruct (leb b c) eqn:Hbc.
      * rewrite (leb_trans _ _ _ Hab Hbc).
        repeat (simpl; rewrite ?Hab, ?Ha, ?Hb, ?Hc). reflexivity.
      * destruct (leb a c) eqn:Hac;
          repeat (simpl; rewrite ?Hab, ?Hac, ?Ha, ?Hb, ?Hc); reflexivity.
Qed.

Lemma list_result_files_spec_witness :
  @list_result_files basic_unicode (Some sample_listing)
  = [u "Преднизолон_мазь.json"; u "аспирин.json"].
Proof.
  rewrite (proj2 (proj2 (proj2 (proj2 (proj2 (proj2 (proj2
             (@list_result_files_spec basic_unicode sample_listing))))))))
    with (a := u "Преднизолон_мазь.json")
         (b := u "преднизолон_таблетки.json") (c := u "аспирин.json").
  - vm_compute. reflexivity.
  - apply perm_swap.
  - repeat constructor.
  - vm_compute. reflexivity.
  - vm_compute. reflexivity.
  - vm_compute. reflexivity.
  - vm_compute. reflexivity.
Defined.

(** ** Section locator *)

Section LocatorFacts.
Context {U : Unicode} {W : World}.
Local Open Scope Z_scope.

Lemma last_default {A : Type} (l : list A) (x d d' : A) :
  last (x :: l) d = last (x :: l) d'.
Proof.
  revert x; induction l as [|y l IH]; intros x; [reflexivity|].
  change (last (y :: l) d = last (y :: l) d'). apply IH.
Qed.

Lemma last_cons {A : Type} (x d : A) (l : list A) :
  last (x :: l) d = last l x.
Proof.
  destruct l as [|y l]; [reflexivity|].
  change (last (y :: l) d = last (y :: l) x). apply last_default.
Qed.

(** The search finds exactly the occurrences of [4.1] or [4,1] that have
    a word boundary on both sides. *)
Lemma marker_search_from_iff (prev : option char) (text : str) :
  marker_search_from prev text = true <->
  exists pre sep post,
    text = pre ++ 52%N :: sep :: 49%N :: post
    /\ (sep = 46%N \/ sep = 44%N)
    /\ word_boundary (last_char prev pre) (Some 52%N) = true
    /\ word_boundary (Some 49%N) (hd_error post) = true.
Proof.
  revert prev; induction text as [|c0 rest IH]; intros prev.
  - simpl. split; [discriminate|].
    intros (pre & sep & post & E & _). destruct pre; discriminate.
  - cbn [marker_search_from]. rewrite orb_true_iff, IH. split.
    + intros [H | (pre & sep & post & -> & Hsep & Hb1 & Hb2)].
      * destruct rest as [|c1 [|c2 tl]]; try discriminate.
        rewrite !andb_true_iff, orb_true_iff, !N.eqb_eq in H.
        destruct H as [[[[-> Hsep] ->] Hb1] Hb2].
        exists [], c1, tl. auto.
      * exists (c0 :: pre), sep, post. repeat split; auto.
        unfold last_char in *. simpl map. rewrite last_cons. exact Hb1.
    + intros (pre & sep & post & E & Hsep & Hb1 & Hb2).
      destruct pre as [|p pre]; simpl in E; inversion E; subst.
      * left. unfold last_char in Hb1. simpl in Hb1.
        rewrite !andb_true_iff, orb_true_iff, !N.eqb_eq. repeat split; auto.
      * right. exists pre, sep, post. repeat split; auto.
        unfold last_char in *. simpl map in Hb1. rewrite last_cons in Hb1.
        exact Hb1.
Qed.

Lemma scan_pages_none (idx : Z) (pages : list str) :
  Forall (fun text => marker_search text = false) pages ->
  scan_pages idx pages = None.
Proof.
  intros H; revert idx; induction H as [|text pages Ht _ IH]; intros idx;
    simpl; [reflexivity|].
  rewrite Ht. apply IH.
Qed.

Lemma scan_pages_first (idx : Z) (pre post : list str) (text : str) :
  Forall (fun text => marker_search text = false) pre ->
  marker_search text = true ->
  scan_pages idx (pre ++ text :: post) = Some (idx + Z.of_nat (List.length pre)).
Proof.
  intros H Ht; revert idx; induction H as [|t pre Hn _ IH]; intros idx.
  - simpl. rewrite Ht. f_equal. lia.
  - cbn [app scan_pages]. rewrite Hn, IH. f_equal. cbn [List.length]. lia.
Qed.

Lemma get_pdf_page_count_ge_1 (pdf_path : str) :
  1 <= get_pdf_page_count pdf_path.
Proof.
  unfold get_pdf_page_count.
  destruct (pdfinfo pdf_path) as [stdout|e]; cbn [rbind]; [|lia].
  induction (splitlines stdout) as [|line lines IH]; cbn [scan_lines]; [lia|].
  destruct (startswith (u "pages:") (lower line)); [|exact IH].
  destruct (after_first 58%N line) as [field|]; cbn [rbind]; [|lia].
  destruct (py_int (strip field)) as [count|]; cbn [rbind]; lia.
Qed.

Lemma scan_lines_skip (pre lines : list str) :
  Forall (fun line => startswith (u "pages:") (lower line) = false) pre ->
  scan_lines (pre ++ lines) = scan_lines lines.
Proof.
  induction 1 as [|line pre Hl _ IH]; [reflexivity|].
  cbn [app scan_lines]. rewrite Hl. exact IH.
Qed.

End LocatorFacts.

(** C2: the locator answers 1 when the extraction raises, whatever the
    exception, and when no page matches the pattern; else it answers the
    1-based index of the first page, in the order of the document, that
    matches. *)
Theorem find_section_page_spec {U : Unicode} {W : World}
    (pdf_path section : str) :
  (forall e, pdftotext pdf_path = Raised e ->
     find_section_page pdf_path section = 1%Z)
  /\ (forall stdout,
        pdftotext pdf_path = Ok stdout ->
        Forall (fun text => marker_search text = false) (split 12%N stdout) ->
        find_section_page pdf_path section = 1%Z)
  /\ (forall stdout pre text post,
        pdftotext pdf_path = Ok stdout ->
        split 12%N stdout = pre ++ text :: post ->
        Forall (fun text => marker_search text = false) pre ->
        marker_search text = true ->
        find_section_page pdf_path section
        = (Z.of_nat (List.length pre) + 1)%Z).
Proof.
  unfold find_section_page. repeat split.
  - intros e ->. reflexivity.
  - intros stdout -> H. rewrite scan_pages_none by exact H. reflexivity.
  - intros stdout pre text post -> -> Hpre Ht.
    rewrite scan_pages_first by assumption. lia.
Qed.

Lemma find_section_page_spec_witness :
  @find_section_page basic_unicode
     (sample_world (Ok (u "Contents" ++ [12%N] ++ u "see 14.1" ++ [12%N]
                        ++ u "4,1. Indications" ++ [12%N]))
                   (Ok []))
     (u "leaflet.pdf") (u "4.1")
  = 3%Z.
Proof.
  apply (proj2 (proj2 (@find_section_page_spec basic_unicode _ _ _)))
    with (stdout := u "Contents" ++ [12%N] ++ u "see 14.1" ++ [12%N]
                    ++ u "4,1. Indications" ++ [12%N])
         (pre := [u "Contents"; u "see 14.1"]) (text := u "4,1. Indications")
         (post := [[]]).
  - reflexivity.
  - vm_compute. reflexivity.
  - repeat constructor.
  - vm_compute. reflexivity.
Defined.

(** C3: the pattern does not come from the label.  On a document whose
    second page holds a heading 5.2 and that has no heading 4.1, the
    locator asked for 5.2 answers 1, where a pattern built from the label
    gives 2; the label never changes the answer. *)
Theorem find_section_page_ignores_label :
  @find_section_page basic_unicode (sample_world (Ok sample_text) (Ok []))
     (u "leaflet.pdf") (u "5.2") = 1%Z
  /\ @spec_find_section_page basic_unicode
       (sample_world (Ok sample_text) (Ok [])) (u "leaflet.pdf") (u "5.2")
     = 2%Z
  /\ (forall (U : Unicode) (W : World) (pdf_path s1 s2 : str),
         find_section_page pdf_path s1 = find_section_page pdf_path s2).
Proof.
  split; [vm_compute; reflexivity|].
  split; [vm_compute; reflexivity|].
  intros. reflexivity.
Qed.

(** C9: the page count is at least 1: it is 1 when the tool fails, when
    no line of its output starts with [pages:] and when the count of the
    first such line cannot be read, and it is the larger of 1 and that
    count otherwise. *)
Theorem get_pdf_page_count_positive {U : Unicode} {W : World}
    (pdf_path : str) :
  (1 <= get_pdf_page_count pdf_path)%Z
  /\ (forall e, pdfinfo pdf_path = Raised e ->
        get_pdf_page_count pdf_path = 1%Z)
  /\ (forall stdout,
        pdfinfo pdf_path = Ok stdout ->
        Forall (fun line => startswith (u "pages:") (lower line) = false)
               (splitlines stdout) ->
        get_pdf_page_count pdf_path = 1%Z)
  /\ (forall stdout pre line post,
        pdfinfo pdf_path = Ok stdout ->
        splitlines stdout = pre ++ line :: post ->
        Forall (fun line => startswith (u "pages:") (lower line) = false)
               pre ->
        startswith (u "pages:") (lower line) = true ->
        get_pdf_page_count pdf_path =
          match rbind (after_first 58%N line)
                      (fun field => py_int (strip field)) with
          | Ok count => Z.max 1 count
          | Raised _ => 1%Z
          end).
Proof.
  split; [apply get_pdf_page_count_ge_1|].
  unfold get_pdf_page_count. repeat split.
  - intros e ->. reflexivity.
  - intros stdout -> H. cbn [rbind].
    rewrite <- (app_nil_r (splitlines stdout)), scan_lines_skip by exact H.
    reflexivity.
  - intros stdout pre line post -> Hs Hpre Hline. cbn [rbind].
    rewrite Hs, scan_lines_skip by exact Hpre. cbn [scan_lines]. rewrite Hline.
    destruct (after_first 58%N line) as [field|]; cbn [rbind]; [|reflexivity].
    destruct (py_int (strip field)); reflexivity.
Qed.

Lemma get_pdf_page_count_positive_witness :
  @get_pdf_page_count basic_unicode (sample_world (Ok sample_text) (Ok []))
     (u "leaflet.pdf") = 3%Z.
Proof.
  rewrite (proj2 (proj2 (proj2 (@get_pdf_page_count_positive basic_unicode
             (sample_world (Ok sample_text) (Ok [])) (u "leaflet.pdf")))))
    with (stdout := u "Title: leaflet" ++ [10%N] ++ u "Pages:   3" ++ [10%N])
         (pre := [u "Title: leaflet"]) (line := u "Pages:   3") (post := []).
  - vm_compute. reflexivity.
  - reflexivity.
  - vm_compute. reflexivity.
  - repeat constructor.
  - vm_compute. reflexivity.
Defined.

(** ** Pagination and display *)

Section PaginationFacts.
Context {U : Unicode} {W : World}.
Variable clicked : str -> bool.
Local Open Scope Z_scope.

Lemma lookup_store (key : str) (v : Z) (ss : session) :
  dict_lookup (store key v ss) key = Some v.
Proof.
  induction ss as [|[k w] ss IH]; simpl.
  - rewrite eqb_refl. reflexivity.
  - destruct (PyStr.eqb k key) eqn:E; simpl; rewrite E; [reflexivity | exact IH].
Qed.

Lemma page_after_control_range (total_pages : Z) (key_prefix : str) (page : Z) :
  1 <= total_pages ->
  1 <= page_after_control clicked total_pages key_prefix page <= total_pages.
Proof. unfold page_after_control. intros H. lia. Qed.

(** One call of the control: it reads the stored page, displays the
    buttons and stores the page after the clicks, clamped. *)
Lemma render_page_control_run (total_pages : Z)
    (page_state_key key_prefix : str) (show_label : bool) (ss : session)
    (page : Z) :
  dict_lookup ss page_state_key = Some page ->
  render_page_control clicked total_pages page_state_key key_prefix
                      show_label ss
  = Done tt
      (store page_state_key
             (page_after_control clicked total_pages key_prefix page) ss)
      (control_elements total_pages key_prefix show_label page).
Proof.
  intros H. unfold render_page_control, bind, get_state, st_button, display,
    ret, set_state, page_after_control, control_elements.
  rewrite H. destruct show_label; reflexivity.
Qed.

Lemma control_elements_no_warning (total_pages : Z) (key_prefix : str)
    (show_label : bool) (page : Z) :
  existsb is_warning (control_elements total_pages key_prefix show_label page)
  = false.
Proof. destruct show_label; reflexivity. Qed.

End PaginationFacts.

Section RunFacts.
Context {U : Unicode} {W : World}.
Variable clicked : str -> bool.
Local Open Scope Z_scope.

(** One run of [render_pdf] on a file that exists. *)
Lemma render_pdf_run (pdf_path state_key : str) (ss : session) :
  path_exists pdf_path = true ->
  let total_pages := get_pdf_page_count pdf_path in
  let key := u "pdf_page_" ++ state_key in
  let page := shown_page clicked pdf_path state_key ss in
  let ss1 :=
    store key page
      (match dict_lookup ss key with
       | Some _ => ss
       | None =>
           store key
             (Z.min (Z.max (find_section_page pdf_path (u "4.1")) 1)
                    total_pages) ss
       end) in
  let top :=
    control_elements total_pages (u "top_" ++ state_key) true
      (match dict_lookup ss key with
       | Some stored => stored
       | None =>
           Z.min (Z.max (find_section_page pdf_path (u "4.1")) 1) total_pages
       end) in
  render_pdf clicked pdf_path state_key ss =
    match render_pdf_page_as_image pdf_path page with
    | Ok (Some img) =>
        Done tt
          (store key
             (page_after_control clicked total_pages
                                 (u "bottom_" ++ state_key) page) ss1)
          (top
           ++ Image img (path_name pdf_path ++ u ", страница "
                         ++ str_of_Z page ++ u "/" ++ str_of_Z total_pages)
           :: control_elements total_pages (u "bottom_" ++ state_key) false
                               page)
    | _ =>
        match as_uri pdf_path with
        | Ok uri => Done tt ss1 (top ++ [fallback_warning; fallback_link uri])
        | Raised e => Crash e ss1 (top ++ [fallback_warning])
        end
    end.
Proof.
  intros Hex total_pages key page ss1 top.
  unfold render_pdf. rewrite Hex. cbn [negb].
  fold total_pages. fold key.
  unfold bind, has_state.
  assert (Hpage : page =
            page_after_control clicked total_pages (u "top_" ++ state_key)
              (match dict_lookup ss key with
               | Some stored => stored
               | None =>
                   Z.min (Z.max (find_section_page pdf_path (u "4.1")) 1)
                         total_pages
               end)) by reflexivity.
  destruct (dict_lookup ss key) as [stored|] eqn:Hl; cbn [negb];
    unfold set_state, ret.
  - rewrite (render_page_control_run clicked _ _ _ _ _ Hl).
    rewrite <- Hpage. unfold get_state. rewrite lookup_store.
    unfold try_except, lift, display.
    destruct (render_pdf_page_as_image pdf_path page) as [[img|]|e].
    + rewrite (render_page_control_run clicked _ _ _ _ _
                 (lookup_store key page ss)).
      reflexivity.
    + destruct (as_uri pdf_path); reflexivity.
    + destruct (as_uri pdf_path); reflexivity.
  - rewrite (render_page_control_run clicked _ _ _ _ _
               (lookup_store key _ ss)).
    rewrite <- Hpage. unfold get_state. rewrite lookup_store.
    unfold try_except, lift, display.
    destruct (render_pdf_page_as_image pdf_path page) as [[img|]|e].
    + rewrite (render_page_control_run clicked _ _ _ _ _
                 (lookup_store key page _)).
      reflexivity.
    + destruct (as_uri pdf_path); reflexivity.
    + destruct (as_uri pdf_path); reflexivity.
Qed.

End RunFacts.

Section InvariantFacts.
Context {U : Unicode} {W : World}.
Local Open Scope Z_scope.



Lemma render_pdf_in_range (clicked : str -> bool) (pdf_path state_key : str)
    (ss : session) :
  path_exists pdf_path = true ->
  in_range (get_pdf_page_count pdf_path) (u "pdf_page_" ++ state_key)
    (session_after (render_pdf clicked pdf_path state_key ss)).
Proof.
  intros Hex. rewrite (render_pdf_run clicked pdf_path state_key ss Hex).
  pose proof (get_pdf_page_count_ge_1 pdf_path) as HN.
  destruct (render_pdf_page_as_image pdf_path
              (shown_page clicked pdf_path state_key ss)) as [[img|]|e];
    [|destruct (as_uri pdf_path) ..]; cbn [session_after];
    eexists; (split; [apply lookup_store|]);
    try apply page_after_control_range; exact HN.
Qed.


Lemma no_click_keeps (total_pages : Z) (key_prefix : str) (page : Z) :
  1 <= page <= total_pages ->
  page_after_control no_click total_pages key_prefix page = page.
Proof. unfold page_after_control, no_click. lia. Qed.

End InvariantFacts.






(** ** Structured record renderer *)

Section StructuredFacts.
Context {U : Unicode} {image : Type}.

(** Induction on a record: the items of a list and the values of a
    dictionary, and the items of a list that is such a value. *)
Lemma json_induction (P : json -> Prop) :
  (forall v, P (JScalar v)) ->
  (forall items, Forall P items -> P (JList items)) ->
  (forall entries,
      Forall (fun kv : str * json =>
                P (snd kv)
                /\ match snd kv with
                   | JList items => Forall P items
                   | _ => True
                   end) entries ->
      P (JDict entries)) ->
  forall data, P data.
Proof.
  intros Hs Hl Hd.
  assert (Hboth : forall data,
             P data /\ match data with
                       | JList items => Forall P items
                       | _ => True
                       end).
  { fix IH 1. intros [v|items|entries].
    - split; [apply Hs | exact I].
    - assert (Hitems : Forall P items).
      { induction items as [|item items IHitems]; constructor;
          [apply IH | exact IHitems]. }
      split; [apply Hl, Hitems | exact Hitems].
    - split; [|exact I]. apply Hd.
      induction entries as [|kv entries IHentries]; constructor;
        [apply IH | exact IHentries]. }
  intros data. apply Hboth.
Qed.

Lemma for_enumerate_ext {A B : Type} (f g : nat -> A -> list B) (l : list A) :
  Forall (fun x => forall idx, f idx x = g idx x) l ->
  forall start, for_enumerate f start l = for_enumerate g start l.
Proof.
  induction 1 as [|x l Hx _ IH]; intros start; simpl; [reflexivity|].
  rewrite Hx, IH. reflexivity.
Qed.

Lemma for_items_ext {A B : Type} (f g : str -> A -> list B)
    (entries : list (str * A)) :
  Forall (fun kv => f (fst kv) (snd kv) = g (fst kv) (snd kv)) entries ->
  for_items f entries = for_items g entries.
Proof.
  induction 1 as [|kv l Hkv _ IH]; simpl; [reflexivity|].
  rewrite Hkv, IH. reflexivity.
Qed.

Lemma for_items_app {A B : Type} (f : str -> A -> list B)
    (d1 d2 : list (str * A)) :
  for_items f (d1 ++ d2) = for_items f d1 ++ for_items f d2.
Proof.
  induction d1 as [|kv d1 IH]; simpl; [reflexivity|].
  rewrite IH, app_assoc. reflexivity.
Qed.

Lemma render_structured_same (data : json) :
  forall level parent_key level' parent_key',
    @render_structured U image data level parent_key
    = render_structured data level' parent_key'.
Proof.
  induction data as [v|items IH|entries IH] using json_induction;
    intros level parent_key level' parent_key'.
  - reflexivity.
  - cbn [render_structured]. apply for_enumerate_ext.
    eapply Forall_impl; [|exact IH]. cbn beta. intros item Hitem idx.
    rewrite (Hitem (level + 1)%Z parent_key (level' + 1)%Z parent_key').
    reflexivity.
  - cbn [render_structured]. apply for_items_ext.
    eapply Forall_impl; [|exact IH]. cbn beta.
    intros [key value] [Hvalue Hitems]. cbn [fst snd] in *.
    destruct value as [v|items|sub].
    + reflexivity.
    + f_equal. f_equal. destruct items as [|item items]; [reflexivity|].
      apply for_enumerate_ext.
      eapply Forall_impl; [|exact Hitems]. cbn beta. intros it Hit idx.
      destruct it; [reflexivity | |];
        rewrite (Hit (level + 1)%Z key (level' + 1)%Z key); reflexivity.
    + rewrite (Hvalue (level + 1)%Z key (level' + 1)%Z key). reflexivity.
Qed.

Lemma startswith_app (prefix rest : str) :
  startswith prefix (prefix ++ rest) = true.
Proof.
  induction prefix as [|c prefix IH]; simpl; [reflexivity|].
  rewrite N.eqb_refl. exact IH.
Qed.

Lemma block_depth_app (out1 out2 : list (rendered image)) (depth : nat) :
  block_depth depth (out1 ++ out2)
  = match block_depth depth out1 with
    | Some d => block_depth d out2
    | None => None
    end.
Proof.
  revert depth; induction out1 as [|r out1 IH]; intros depth; simpl;
    [reflexivity|].
  destruct (closes_block r); [destruct depth; [reflexivity | apply IH]|].
  destruct (opens_block r); apply IH.
Qed.

(** Elements that neither open nor close a block leave the depth. *)
Lemma block_depth_plain (out : list (rendered image)) (depth : nat) :
  Forall (fun r => closes_block r = false /\ opens_block r = false) out ->
  block_depth depth out = Some depth.
Proof.
  induction 1 as [|r out [Hc Ho] _ IH]; simpl; [reflexivity|].
  rewrite Hc, Ho. exact IH.
Qed.

Lemma open_block_depth (title : str) (depth : nat) :
  block_depth depth (@open_block image title) = Some (S depth)
  /\ block_depth depth (@open_block_soft image title) = Some (S depth).
Proof.
  unfold open_block, open_block_soft. cbn [block_depth opens_block closes_block].
  rewrite !startswith_app. unfold block_style.
  vm_compute (u "</div>").
  vm_compute (u "<div style='border:1px solid #d9d9d9; border-radius:10px; ").
  split; reflexivity.
Qed.

Lemma close_block_depth (depth : nat) :
  block_depth (S depth) (@close_block image) = Some depth.
Proof.
  unfold close_block. cbn [block_depth closes_block].
  rewrite eqb_refl. reflexivity.
Qed.

Lemma subtitle_plain (key : str) :
  Forall (fun r => closes_block r = false /\ opens_block r = false)
         (@subtitle image key).
Proof.
  unfold subtitle. constructor; [|constructor].
  cbn [closes_block opens_block]. unfold block_style.
  vm_compute (u "</div>"). vm_compute (u "<div class='dense-subtitle'>").
  vm_compute (u "<div style='border:1px solid #d9d9d9; border-radius:10px; ").
  split; reflexivity.
Qed.

Lemma scalar_line_plain (key : str) (v : scalar) :
  Forall (fun r => closes_block r = false /\ opens_block r = false)
         (map Shown (@render_scalar_line U image key v)).
Proof.
  unfold render_scalar_line.
  destruct v; try (constructor; fail);
    (destruct (is_blank _); [constructor|]);
    (destruct (PyStr.eqb key (u "tags"));
     [ unfold render_tags; destruct (tag_parts _); [constructor|];
       constructor; [|constructor];
       cbn [closes_block opens_block]; unfold block_style;
       vm_compute (u "</div>"); vm_compute (u "**");
       vm_compute (u "<div style='border:1px solid #d9d9d9; border-radius:10px; ");
       split; reflexivity
     | constructor; [|constructor];
       cbn [closes_block opens_block]; unfold block_style, scalar_line_html;
       vm_compute (u "</div>"); vm_compute (u "<div class='dense-line'>");
       vm_compute (u "<div style='border:1px solid #d9d9d9; border-radius:10px; ");
       split; reflexivity ]).
Qed.

End StructuredFacts.

Section StructuredDepth.
Context {U : Unicode} {image : Type}.

Lemma for_enumerate_depth {A : Type} (f : nat -> A -> list (rendered image))
    (l : list A) :
  Forall (fun x => forall idx depth, block_depth depth (f idx x) = Some depth)
         l ->
  forall start depth, block_depth depth (for_enumerate f start l) = Some depth.
Proof.
  induction 1 as [|x l Hx _ IH]; intros start depth; simpl; [reflexivity|].
  rewrite block_depth_app, Hx. apply IH.
Qed.

Lemma for_items_depth {A : Type} (f : str -> A -> list (rendered image))
    (entries : list (str * A)) :
  Forall (fun kv => forall depth,
              block_depth depth (f (fst kv) (snd kv)) = Some depth) entries ->
  forall depth, block_depth depth (for_items f entries) = Some depth.
Proof.
  induction 1 as [|kv l Hkv _ IH]; intros depth; simpl; [reflexivity|].
  rewrite block_depth_app, Hkv. apply IH.
Qed.

(** A block around an output that keeps the depth keeps the depth. *)
Lemma block_around (title : str) (out : list (rendered image)) :
  (forall depth, block_depth depth out = Some depth) ->
  forall depth,
    block_depth depth (open_block title ++ out ++ close_block) = Some depth.
Proof.
  intros Hout depth.
  rewrite block_depth_app, (proj1 (open_block_depth title depth)).
  rewrite block_depth_app, Hout. apply close_block_depth.
Qed.

Lemma block_around_soft (title : str) (out : list (rendered image)) :
  (forall depth, block_depth depth out = Some depth) ->
  forall depth,
    block_depth depth (open_block_soft title ++ out ++ close_block)
    = Some depth.
Proof.
  intros Hout depth.
  rewrite block_depth_app, (proj2 (open_block_depth title depth)).
  rewrite block_depth_app, Hout. apply close_block_depth.
Qed.

Lemma render_structured_depth (data : json) :
  forall level parent_key depth,
    block_depth depth (@render_structured U image data level parent_key)
    = Some depth.
Proof.
  induction data as [v|items IH|entries IH] using json_induction;
    intros level parent_key depth.
  - reflexivity.
  - cbn [render_structured]. apply for_enumerate_depth.
    eapply Forall_impl; [|exact IH]. cbn beta. intros item Hitem idx d.
    apply block_around. intros d'. apply Hitem.
  - cbn [render_structured]. apply for_items_depth.
    eapply Forall_impl; [|exact IH]. cbn beta.
    intros [key value] [Hvalue Hitems] d. cbn [fst snd] in *.
    destruct value as [v|items|sub].
    + apply block_depth_plain, scalar_line_plain.
    + assert (Hhr : Forall (fun r : rendered image =>
                              closes_block r = false /\ opens_block r = false)
                (if PyStr.eqb key (u "dosage")
                 then [Shown (Markdown (u "<hr style='border:none; border-top:1px solid #e5e7eb; margin:6px 0 8px 0;'>") true)]
                 else [])).
      { destruct (PyStr.eqb key (u "dosage")); constructor; [|constructor].
        cbn [closes_block opens_block]. unfold block_style.
        vm_compute (u "</div>").
        vm_compute (u "<hr style='border:none; border-top:1px solid #e5e7eb; margin:6px 0 8px 0;'>").
        vm_compute (u "<div style='border:1px solid #d9d9d9; border-radius:10px; ").
        split; reflexivity. }
      rewrite block_depth_app, (block_depth_plain _ Hhr).
      rewrite block_depth_app, (block_depth_plain _ (subtitle_plain key)).
      destruct items as [|item items]; [reflexivity|].
      apply for_enumerate_depth.
      eapply Forall_impl; [|exact Hitems]. cbn beta. intros it Hit idx d'.
      destruct it; [reflexivity | |];
        apply block_around; intros d''; apply Hit.
    + destruct (PyStr.eqb key (u "indication")); cbn [negb];
        [apply Hvalue|].
      destruct (PyStr.eqb key (u "administration")).
      * apply block_around_soft. intros d'. apply Hvalue.
      * rewrite block_depth_app, (block_depth_plain _ (subtitle_plain key)).
        apply Hvalue.
Qed.

Lemma render_scalar_line_blank (key : str) (v : scalar) :
  v = SNone \/ is_blank v = true -> @render_scalar_line U image key v = [].
Proof.
  intros [-> | Hb]; [reflexivity|].
  unfold render_scalar_line. rewrite Hb. destruct v; reflexivity.
Qed.

End StructuredDepth.

(** X1: the record renderer never uses its [level] and [parent_key]
    arguments: a record is rendered the same way wherever it is nested. *)
Theorem render_structured_context_free {U : Unicode} {image : Type}
    (data : json) (level : Z) (parent_key : str) :
  @render_structured U image data level parent_key
  = render_structured data 0 [].
Proof. apply render_structured_same. Qed.

(** X2: in the output of the record renderer the blocks are properly
    nested: no block is closed that was not opened, and every block
    opened is closed, whatever the record. *)
Theorem render_structured_blocks_nested {U : Unicode} {image : Type}
    (data : json) (level : Z) (parent_key : str) :
  block_depth 0 (@render_structured U image data level parent_key) = Some 0
  /\ forall before after,
       @render_structured U image data level parent_key = before ++ after ->
       exists depth,
         block_depth 0 before = Some depth
         /\ block_depth depth after = Some 0.
Proof.
  split; [apply render_structured_depth|].
  intros before after E.
  pose proof (render_structured_depth (U := U) (image := image)
                data level parent_key 0) as H.
  rewrite E, block_depth_app in H.
  destruct (block_depth 0 before) as [depth|]; [|discriminate].
  exists depth. auto.
Qed.

(** X3: rendering a dictionary is rendering its entries one after the
    other, and an entry whose value is [None] or a blank string leaves
    nothing in the output: the record without it is rendered the same. *)
Theorem render_structured_blank_entry {U : Unicode} {image : Type}
    (before after : list (str * json)) (key : str) (v : scalar)
    (level : Z) (parent_key : str) :
  v = SNone \/ is_blank v = true ->
  @render_structured U image (JDict (before ++ (key, JScalar v) :: after))
     level parent_key
  = render_structured (JDict (before ++ after)) level parent_key
  /\ render_structured (JDict (before ++ after)) level parent_key
     = @render_structured U image (JDict before) level parent_key
       ++ render_structured (JDict after) level parent_key.
Proof.
  intros Hv. cbn [render_structured]. rewrite !for_items_app.
  split; [|reflexivity].
  cbn [for_items fst snd]. rewrite (render_scalar_line_blank key Hv).
  reflexivity.
Qed.

Lemma render_structured_blank_entry_witness :
  @render_structured basic_unicode unit
     (JDict ([(u "dose", JScalar (SInt 5))]
             ++ (u "unit", JScalar (SStr (u "  ")))
             :: [(u "form", JScalar (SStr (u "tablet")))])) 0 []
  = @render_structured basic_unicode unit
      (JDict ([(u "dose", JScalar (SInt 5))]
              ++ [(u "form", JScalar (SStr (u "tablet")))])) 0 [].
Proof.
  apply (proj1 (@render_structured_blank_entry basic_unicode unit
                  [(u "dose", JScalar (SInt 5))]
                  [(u "form", JScalar (SStr (u "tablet")))]
                  (u "unit") (SStr (u "  ")) 0%Z []
                  (or_intror eq_refl))).
Defined.

(** ** More on pagination and display *)

Section SessionFacts.
Context {U : Unicode} {W : World}.
Local Open Scope Z_scope.

Lemma lookup_store_other (key key' : str) (v : Z) (ss : session) :
  key' <> key -> dict_lookup (store key v ss) key' = dict_lookup ss key'.
Proof.
  intros Hne. induction ss as [|[k w] ss IH]; simpl.
  - destruct (PyStr.eqb key key') eqn:E; [|reflexivity].
    apply eqb_eq in E. congruence.
  - destruct (PyStr.eqb k key) eqn:E; simpl.
    + apply eqb_eq in E. subst k.
      destruct (PyStr.eqb key key') eqn:E'; [|reflexivity].
      apply eqb_eq in E'. congruence.
    + rewrite IH. reflexivity.
Qed.

Lemma eqb_app_head (prefix a b : str) :
  PyStr.eqb (prefix ++ a) (prefix ++ b) = PyStr.eqb a b.
Proof.
  induction prefix as [|c prefix IH]; simpl; [reflexivity|].
  rewrite N.eqb_refl. exact IH.
Qed.

Lemma only_next (key_prefix : str) :
  only_click (key_prefix ++ u "_next") (key_prefix ++ u "_next") = true
  /\ only_click (key_prefix ++ u "_next") (key_prefix ++ u "_prev") = false.
Proof. unfold only_click. rewrite !eqb_app_head. split; reflexivity. Qed.

Lemma only_prev (key_prefix : str) :
  only_click (key_prefix ++ u "_prev") (key_prefix ++ u "_prev") = true
  /\ only_click (key_prefix ++ u "_prev") (key_prefix ++ u "_next") = false.
Proof. unfold only_click. rewrite !eqb_app_head. split; reflexivity. Qed.

Lemma page_after_next (total_pages : Z) (key_prefix : str) (page : Z) :
  1 <= page <= total_pages ->
  page_after_control (only_click (key_prefix ++ u "_next")) total_pages
                     key_prefix page
  = Z.min total_pages (page + 1).
Proof.
  intros H. unfold page_after_control.
  rewrite (proj1 (only_next key_prefix)), (proj2 (only_next key_prefix)). lia.
Qed.

Lemma page_after_prev (total_pages : Z) (key_prefix : str) (page : Z) :
  1 <= page <= total_pages ->
  page_after_control (only_click (key_prefix ++ u "_prev")) total_pages
                     key_prefix page
  = Z.max 1 (page - 1).
Proof.
  intros H. unfold page_after_control.
  rewrite (proj1 (only_prev key_prefix)), (proj2 (only_prev key_prefix)). lia.
Qed.

End SessionFacts.

(** X4: the control changes the session under its own key only; when
    nothing is stored under that key it raises [KeyError], having
    displayed nothing and stored nothing. *)
Theorem render_page_control_frame {W : World} (clicked : str -> bool)
    (total_pages : Z) (page_state_key key_prefix : str) (show_label : bool)
    (ss : session) :
  (forall key,
      key <> page_state_key ->
      dict_lookup
        (session_after (render_page_control clicked total_pages page_state_key
                                            key_prefix show_label ss)) key
      = dict_lookup ss key)
  /\ (dict_lookup ss page_state_key = None ->
      render_page_control clicked total_pages page_state_key key_prefix
                          show_label ss
      = Crash (KeyError page_state_key) ss []).
Proof.
  split.
  - intros key Hne.
    destruct (dict_lookup ss page_state_key) as [page|] eqn:Hl.
    + rewrite (render_page_control_run clicked _ _ _ _ _ Hl).
      cbn [session_after]. apply lookup_store_other, Hne.
    + unfold render_page_control, bind, get_state. rewrite Hl. reflexivity.
  - intros Hl. unfold render_page_control, bind, get_state. rewrite Hl.
    reflexivity.
Qed.

(** X5: on a stored page within the range, "forward" alone stores the
    next page, or the same page on the last one; "back" alone stores the
    previous page, or the same page on the first one; and "forward" then
    "back" comes back to the page unless it was the last one. *)
Theorem render_page_control_navigation {W : World}
    (total_pages : Z) (key key_prefix : str) (show_label : bool)
    (ss : session) (page : Z) :
  dict_lookup ss key = Some page -> (1 <= page <= total_pages)%Z ->
  let forward := only_click (key_prefix ++ u "_next") in
  let back := only_click (key_prefix ++ u "_prev") in
  let after_forward :=
    session_after (render_page_control forward total_pages key key_prefix
                                       show_label ss) in
  let after_back :=
    session_after (render_page_control back total_pages key key_prefix
                                       show_label ss) in
  dict_lookup after_forward key
  = Some (if (page <? total_pages)%Z then (page + 1)%Z else page)
  /\ dict_lookup after_back key
     = Some (if (1 <? page)%Z then (page - 1)%Z else page)
  /\ ((page < total_pages)%Z ->
      dict_lookup
        (session_after (render_page_control back total_pages key key_prefix
                                            show_label after_forward)) key
      = Some page).
Proof.
  intros Hl Hr forward back after_forward after_back.
  assert (Hf : dict_lookup after_forward key
               = Some (Z.min total_pages (page + 1))).
  { unfold after_forward, forward.
    rewrite (render_page_control_run _ _ _ _ _ _ Hl). cbn [session_after].
    rewrite lookup_store, page_after_next by exact Hr. reflexivity. }
  split; [|split].
  - rewrite Hf. f_equal. destruct (Z.ltb_spec page total_pages); lia.
  - unfold after_back, back.
    rewrite (render_page_control_run _ _ _ _ _ _ Hl). cbn [session_after].
    rewrite lookup_store, page_after_prev by exact Hr. f_equal.
    destruct (Z.ltb_spec 1 page); lia.
  - intros Hlt. unfold back.
    rewrite (render_page_control_run _ _ _ _ _ _ Hf). cbn [session_after].
    rewrite lookup_store, page_after_prev by lia. f_equal. lia.
Qed.

Lemma render_page_control_navigation_witness :
  dict_lookup
    (session_after
       (render_page_control (W := sample_world (Ok sample_text) (Ok []))
          (only_click (u "top_leaflet" ++ u "_next")) 3
          (u "pdf_page_leaflet") (u "top_leaflet") true
          [(u "pdf_page_leaflet", 2%Z)]))
    (u "pdf_page_leaflet")
  = Some 3%Z.
Proof.
  assert (Hr : (1 <= 2 <= 3)%Z) by lia.
  exact (proj1 (@render_page_control_navigation
                  (sample_world (Ok sample_text) (Ok []))
                  3 (u "pdf_page_leaflet") (u "top_leaflet") true
                  [(u "pdf_page_leaflet", 2%Z)] 2 eq_refl Hr)).
Defined.

(** X6: a run of the display changes the session under the page key of
    its own document only, so the pages stored for other documents stay;
    for a file that does not exist it displays one error and stores
    nothing. *)
Theorem render_pdf_frame {U : Unicode} {W : World} (clicked : str -> bool)
    (pdf_path state_key : str) (ss : session) :
  (forall key,
      key <> u "pdf_page_" ++ state_key ->
      dict_lookup (session_after (render_pdf clicked pdf_path state_key ss))
                  key
      = dict_lookup ss key)
  /\ (forall other,
         other <> state_key ->
         dict_lookup
           (session_after (render_pdf clicked pdf_path state_key ss))
           (u "pdf_page_" ++ other)
         = dict_lookup ss (u "pdf_page_" ++ other))
  /\ (path_exists pdf_path = false ->
      render_pdf clicked pdf_path state_key ss
      = Done tt ss [Error (u "PDF не найден: `" ++ pdf_path ++ u "`")]).
Proof.
  assert (Hframe : forall key,
             key <> u "pdf_page_" ++ state_key ->
             dict_lookup
               (session_after (render_pdf clicked pdf_path state_key ss)) key
             = dict_lookup ss key).
  { intros key Hne. destruct (path_exists pdf_path) eqn:Hex.
    - rewrite (render_pdf_run clicked pdf_path state_key ss Hex).
      destruct (render_pdf_page_as_image pdf_path
                  (shown_page clicked pdf_path state_key ss)) as [[img|]|e];
        [|destruct (as_uri pdf_path) ..]; cbn [session_after];
        rewrite ?lookup_store_other by exact Hne;
        (destruct (dict_lookup ss (u "pdf_page_" ++ state_key));
         [reflexivity | apply lookup_store_other, Hne]).
    - unfold render_pdf. rewrite Hex. reflexivity. }
  split; [exact Hframe | split].
  - intros other Hne. apply Hframe. intros E.
    apply app_inv_head in E. contradiction.
  - intros Hex. unfold render_pdf. rewrite Hex. reflexivity.
Qed.

(** X7: a run without a click keeps a stored page that lies within the
    range: what the run displays after the top control is the answer of
    the rasteriser for that page at 120 dpi (its first image, or the
    fallback when it raises or has no image), the run depends on the
    rasteriser through that one answer only, and the page stored after
    the run is the same page. *)
Theorem render_pdf_rerun_stable {U : Unicode} {W : World}
    (pdf_path state_key : str) (ss : session) (page : Z) :
  path_exists pdf_path = true ->
  dict_lookup ss (u "pdf_page_" ++ state_key) = Some page ->
  (1 <= page <= get_pdf_page_count pdf_path)%Z ->
  shown_page no_click pdf_path state_key ss = page
  /\ dict_lookup (session_after (render_pdf no_click pdf_path state_key ss))
                 (u "pdf_page_" ++ state_key)
     = Some page
  /\ displayed (render_pdf no_click pdf_path state_key ss)
     = control_elements (get_pdf_page_count pdf_path) (u "top_" ++ state_key)
                        true page
       ++ match convert_from_path pdf_path 120 page page (u "png") with
          | Ok (img :: _) =>
              Image img (path_name pdf_path ++ u ", страница "
                         ++ str_of_Z page ++ u "/"
                         ++ str_of_Z (get_pdf_page_count pdf_path))
              :: control_elements (get_pdf_page_count pdf_path)
                                  (u "bottom_" ++ state_key) false page
          | _ =>
              fallback_warning
              :: match as_uri pdf_path with
                 | Ok uri => [fallback_link uri]
                 | Raised _ => []
                 end
          end
  /\ (forall conv,
         conv pdf_path 120%Z page page (u "png")
         = convert_from_path pdf_path 120 page page (u "png") ->
         displayed (render_pdf (W := with_rasteriser W conv)
                               no_click pdf_path state_key ss)
         = displayed (render_pdf no_click pdf_path state_key ss)
         /\ session_after (render_pdf (W := with_rasteriser W conv)
                                      no_click pdf_path state_key ss)
            = session_after (render_pdf no_click pdf_path state_key ss)).
Proof.
  intros Hex Hl Hr.
  assert (Hshown : shown_page no_click pdf_path state_key ss = page).
  { unfold shown_page. rewrite Hl. apply no_click_keeps, Hr. }
  assert (Hrun : render_pdf no_click pdf_path state_key ss
                 = match render_pdf_page_as_image pdf_path page with
                   | Ok (Some img) =>
                       Done tt
                         (store (u "pdf_page_" ++ state_key) page
                            (store (u "pdf_page_" ++ state_key) page ss))
                         (control_elements (get_pdf_page_count pdf_path)
                            (u "top_" ++ state_key) true page
                          ++ Image img
                               (path_name pdf_path ++ u ", страница "
                                ++ str_of_Z page ++ u "/"
                                ++ str_of_Z (get_pdf_page_count pdf_path))
                             :: control_elements
                                  (get_pdf_page_count pdf_path)
                                  (u "bottom_" ++ state_key) false page)
                   | _ =>
                       match as_uri pdf_path with
                       | Ok uri =>
                           Done tt
                             (store (u "pdf_page_" ++ state_key) page ss)
                             (control_elements (get_pdf_page_count pdf_path)
                                (u "top_" ++ state_key) true page
                              ++ [fallback_warning; fallback_link uri])
                       | Raised e =>
                           Crash e
                             (store (u "pdf_page_" ++ state_key) page ss)
                             (control_elements (get_pdf_page_count pdf_path)
                                (u "top_" ++ state_key) true page
                              ++ [fallback_warning])
                       end
                   end).
  { rewrite (render_pdf_run no_click pdf_path state_key ss Hex), Hshown, Hl.
    rewrite (no_click_keeps (u "bottom_" ++ state_key) Hr). reflexivity. }
  split; [exact Hshown|]. split; [|split].
  - rewrite Hrun.
    destruct (render_pdf_page_as_image pdf_path page) as [[img|]|e];
      [|destruct (as_uri pdf_path) ..]; cbn [session_after];
      apply lookup_store.
  - rewrite Hrun. unfold render_pdf_page_as_image, rbind.
    destruct (convert_from_path pdf_path 120 page page (u "png"))
      as [[|img images]|e]; [destruct (as_uri pdf_path) | |
                             destruct (as_uri pdf_path)];
      reflexivity.
  - intros conv Hconv.
    pose proof (render_pdf_run (W := with_rasteriser W conv)
                  no_click pdf_path state_key ss Hex) as Hrun'.
    cbv zeta in Hrun'.
    change (@shown_page U (with_rasteriser W conv) no_click pdf_path
              state_key ss)
      with (shown_page no_click pdf_path state_key ss) in Hrun'.
    rewrite Hshown in Hrun'.
    change (@render_pdf_page_as_image (with_rasteriser W conv) pdf_path page)
      with (rbind (conv pdf_path 120%Z page page (u "png"))
              (fun images : list (@image W) =>
                 Ok (match images with
                     | img :: _ => Some img
                     | [] => None
                     end))) in Hrun'.
    rewrite Hconv in Hrun'.
    change (rbind (convert_from_path pdf_path 120 page page (u "png"))
              (fun images : list (@image W) =>
                 Ok (match images with
                     | img :: _ => Some img
                     | [] => None
                     end)))
      with (render_pdf_page_as_image pdf_path page) in Hrun'.
    rewrite Hrun', Hrun.
    destruct (render_pdf_page_as_image pdf_path page) as [[img|]|e].
    + cbn [displayed session_after]. rewrite Hl.
      split; [reflexivity|]. f_equal.
      apply (no_click_keeps (u "bottom_" ++ state_key) Hr).
    + change (@as_uri (with_rasteriser W conv) pdf_path)
        with (as_uri pdf_path).
      destruct (as_uri pdf_path); cbn [displayed session_after]; rewrite Hl;
        split; reflexivity.
    + change (@as_uri (with_rasteriser W conv) pdf_path)
        with (as_uri pdf_path).
      destruct (as_uri pdf_path); cbn [displayed session_after]; rewrite Hl;
        split; reflexivity.
Qed.

Lemma render_pdf_rerun_stable_witness :
  dict_lookup
    (session_after
       (render_pdf (U := basic_unicode)
          (W := sample_world (Ok sample_text) (Ok [7%N]))
          no_click (u "/srv/data/pdfs/leaflet.pdf") (u "leaflet")
          [(u "pdf_page_leaflet", 3%Z)]))
    (u "pdf_page_" ++ u "leaflet")
  = Some 3%Z.
Proof.
  assert (Hr : (1 <= 3 <= @get_pdf_page_count basic_unicode
                             (sample_world (Ok sample_text) (Ok [7%N]))
                             (u "/srv/data/pdfs/leaflet.pdf"))%Z)
    by (vm_compute; split; discriminate).
  exact (proj1 (proj2 (@render_pdf_rerun_stable basic_unicode
                  (sample_world (Ok sample_text) (Ok [7%N]))
                  (u "/srv/data/pdfs/leaflet.pdf") (u "leaflet")
                  [(u "pdf_page_leaflet", 3%Z)] 3 eq_refl eq_refl Hr))).
Defined.

(** X8: with a relative path the fallback cannot build its link: when
    the file exists and no image is produced, the run displays the top
    control and the warning and then raises [ValueError]; the stored page
    is within the range all the same. *)
Theorem render_pdf_relative_path {U : Unicode} {W : World}
    (clicked : str -> bool) (pdf_path state_key : str) (ss : session) :
  path_exists pdf_path = true ->
  is_absolute pdf_path = false ->
  (forall img,
      render_pdf_page_as_image pdf_path
        (shown_page clicked pdf_path state_key ss) <> Ok (Some img)) ->
  exists ss' out,
    render_pdf clicked pdf_path state_key ss
    = Crash ValueError ss' (out ++ [fallback_warning])
    /\ existsb is_warning out = false
    /\ in_range (get_pdf_page_count pdf_path) (u "pdf_page_" ++ state_key) ss'.
Proof.
  intros Hex Hrel Hno.
  pose proof (render_pdf_in_range clicked pdf_path state_key ss Hex) as Hin.
  rewrite (render_pdf_run clicked pdf_path state_key ss Hex) in *.
  unfold as_uri in *. rewrite Hrel in *.
  destruct (render_pdf_page_as_image pdf_path
              (shown_page clicked pdf_path state_key ss)) as [[img|]|e].
  - exfalso. exact (Hno img eq_refl).
  - eexists; eexists. split; [reflexivity|].
    split; [apply control_elements_no_warning | exact Hin].
  - eexists; eexists. split; [reflexivity|].
    split; [apply control_elements_no_warning | exact Hin].
Qed.

Lemma render_pdf_relative_path_witness :
  exists ss' out,
    render_pdf (U := basic_unicode)
      (W := sample_world (Ok sample_text) (Ok []))
      no_click (u "leaflet.pdf") (u "leaflet") []
    = Crash ValueError ss' (out ++ [fallback_warning])
    /\ existsb is_warning out = false
    /\ in_range
         (@get_pdf_page_count basic_unicode
            (sample_world (Ok sample_text) (Ok [])) (u "leaflet.pdf"))
         (u "pdf_page_" ++ u "leaflet") ss'.
Proof.
  apply (@render_pdf_relative_path basic_unicode
           (sample_world (Ok sample_text) (Ok []))
           no_click (u "leaflet.pdf") (u "leaflet") [] eq_refl eq_refl).
  intros img. vm_compute. discriminate.
Defined.

(** ** More on the humanizer *)

Section HumanizeMore.
Context {U : Unicode}.

Lemma humanize_twice (value : str) :
  humanize_iso_duration (humanize_iso_duration value)
  = humanize_iso_duration value.
Proof.
  destruct (humanize_cases value) as [H|H].
  - rewrite H. exact H.
  - apply humanize_head_digit, H.
Qed.

Lemma interval_word_not_code (code word : str) :
  dict_lookup interval_units code = Some word ->
  dict_lookup interval_units word = None.
Proof.
  unfold interval_units. cbn [dict_lookup].
  repeat match goal with
         | |- context [PyStr.eqb ?k code] => destruct (PyStr.eqb k code)
         end;
    intros E; inversion E; reflexivity.
Qed.

End HumanizeMore.

(** X9: the duration matcher accepts exactly the strings of the pattern
    [P], then optional counts of years, months, weeks and days in this
    order, each a non-empty run of decimal digits and its letter; the
    counts it reports are the only way to read the string. *)
Theorem match_duration_regex {U : Unicode} (s : str)
    (gy gm gw gd : option str) :
  letters_not_digits U ->
  (match_duration s = Some (gy, gm, gw, gd) <-> duration_shape s gy gm gw gd)
  /\ (forall gy' gm' gw' gd',
         duration_shape s gy gm gw gd -> duration_shape s gy' gm' gw' gd' ->
         (gy, gm, gw, gd) = (gy', gm', gw', gd')).
Proof.
  intros HU. split.
  - split; [apply match_duration_sound | apply match_duration_complete, HU].
  - intros gy' gm' gw' gd' H H'.
    apply (match_duration_complete HU) in H, H'. congruence.
Qed.

Lemma match_duration_regex_witness :
  @match_duration basic_unicode (u "P12Y3D")
  = Some (Some (u "12"), None, None, Some (u "3")).
Proof.
  apply (proj1 (@match_duration_regex basic_unicode (u "P12Y3D")
                  (Some (u "12")) None None (Some (u "3"))
                  basic_letters_not_digits)).
  vm_compute. repeat split; discriminate.
Defined.

(** X10: white space around a duration does not matter: when the
    humanizer reformats a string, it gives the same text for every string
    that strips to the same text. *)
Theorem humanize_iso_duration_padding {U : Unicode} (value value' : str) :
  strip value' = strip value ->
  humanize_iso_duration value <> value ->
  humanize_iso_duration value' = humanize_iso_duration value.
Proof.
  unfold humanize_iso_duration. intros ->.
  destruct (match_duration (strip value)) as [[[[gy gm] gw] gd]|];
    [|congruence].
  destruct (unit_part (group_int gy) abbr_years
            ++ unit_part (group_int gm) abbr_months
            ++ unit_part (group_int gw) abbr_weeks
            ++ unit_part (group_int gd) abbr_days);
    [congruence | reflexivity].
Qed.

Lemma humanize_iso_duration_padding_witness :
  @humanize_iso_duration basic_unicode (u "  P2W")
  = @humanize_iso_duration basic_unicode (u "P2W ").
Proof.
  apply (@humanize_iso_duration_padding basic_unicode (u "P2W ") (u "  P2W")).
  - vm_compute. reflexivity.
  - vm_compute. discriminate.
Defined.

(** X11: humanizing a value twice under the same key gives what
    humanizing it once gives: a humanized duration is no duration, and the
    words for the interval units are no unit codes. *)
Theorem humanize_value_idempotent {U : Unicode} (key : str) (value : scalar) :
  humanize_value key (humanize_value key value) = humanize_value key value.
Proof.
  unfold humanize_value.
  destruct (existsb (PyStr.eqb key) duration_keys) eqn:Ed.
  - assert (Hi : PyStr.eqb key (u "intervalUnit") = false).
    { destruct (PyStr.eqb key (u "intervalUnit")) eqn:E; [|reflexivity].
      apply eqb_eq in E. subst key. vm_compute in Ed. discriminate. }
    rewrite Hi. destruct value; try reflexivity.
    rewrite humanize_twice. reflexivity.
  - destruct (PyStr.eqb key (u "intervalUnit")) eqn:Hi.
    + assert (Hstep : forall v,
                 match dict_lookup interval_units (py_str v) with
                 | Some word => SStr word
                 | None => v
                 end
                 = match v, false with
                   | SStr s, true => SStr (humanize_iso_duration s)
                   | _, _ =>
                       match dict_lookup interval_units (py_str v) with
                       | Some word => SStr word
                       | None => v
                       end
                   end) by (intros []; reflexivity).
      rewrite <- !Hstep.
      destruct (dict_lookup interval_units (py_str value)) as [word|] eqn:El.
      * cbn [py_str]. rewrite (interval_word_not_code _ El). reflexivity.
      * rewrite El. reflexivity.
    + destruct value; reflexivity.
Qed.

(** ** More on the locator and the selection list *)

Section LocatorMore.
Context {U : Unicode} {W : World}.
Local Open Scope Z_scope.

Lemma split_length (sep : char) (s : str) :
  List.length (split sep s) = S (count_occ N.eq_dec s sep).
Proof.
  induction s as [|c s IH]; simpl; [reflexivity|].
  destruct (N.eqb_spec c sep) as [E|E]; destruct (N.eq_dec c sep) as [E'|E'];
    try congruence.
  - simpl. rewrite IH. reflexivity.
  - destruct (split sep s) as [|piece pieces] eqn:Es;
      [exfalso; exact (split_not_nil _ _ Es)|].
    simpl in *. exact IH.
Qed.

Lemma scan_pages_found (idx : Z) (pages : list str) (r : Z) :
  scan_pages idx pages = Some r ->
  idx <= r < idx + Z.of_nat (List.length pages)
  /\ marker_search (nth (Z.to_nat (r - idx)) pages []) = true.
Proof.
  revert idx; induction pages as [|text pages IH]; intros idx; simpl;
    [discriminate|].
  destruct (marker_search text) eqn:Ht.
  - intros E; inversion E; subst. rewrite Z.sub_diag. simpl.
    split; [lia | exact Ht].
  - intros E. destruct (IH _ E) as [Hr Hm]. split; [lia|].
    replace (Z.to_nat (r - idx)) with (S (Z.to_nat (r - (idx + 1)))) by lia.
    exact Hm.
Qed.

End LocatorMore.

(** X12: the pattern of the locator is found in a text exactly where
    [4.1] or [4,1] stands with a word boundary before the [4] and after
    the [1]. *)
Theorem marker_search_occurrence {U : Unicode} (text : str) :
  marker_search text = true <->
  exists pre sep post,
    text = pre ++ 52%N :: sep :: 49%N :: post
    /\ (sep = 46%N \/ sep = 44%N)
    /\ word_boundary (last_char None pre) (Some 52%N) = true
    /\ word_boundary (Some 49%N) (hd_error post) = true.
Proof. apply marker_search_from_iff. Qed.

(** X13: the locator never points outside the extracted text: its answer
    is at least 1 and at most the number of pages of the text, one more
    than its form feeds; an answer other than 1 is a page that matches. *)
Theorem find_section_page_bounds {U : Unicode} {W : World}
    (pdf_path section : str) :
  (1 <= find_section_page pdf_path section)%Z
  /\ (forall stdout,
         pdftotext pdf_path = Ok stdout ->
         (find_section_page pdf_path section
          <= 1 + Z.of_nat (count_occ N.eq_dec stdout 12%N))%Z
         /\ (find_section_page pdf_path section <> 1%Z ->
             marker_search
               (nth (Z.to_nat (find_section_page pdf_path section - 1))
                    (split 12%N stdout) [])
             = true)).
Proof.
  unfold find_section_page. split.
  - destruct (pdftotext pdf_path) as [stdout|e]; [|lia].
    destruct (scan_pages 1 (split 12%N stdout)) as [r|] eqn:E; [|lia].
    apply scan_pages_found in E. lia.
  - intros stdout ->.
    destruct (scan_pages 1 (split 12%N stdout)) as [r|] eqn:E.
    + apply scan_pages_found in E as [Hr Hm]. rewrite split_length in Hr.
      split; [lia | intros _; exact Hm].
    + split; [lia | congruence].
Qed.

Section ListingMore.
Context {U : Unicode}.

Lemma Permutation_filter_str (f : str -> bool) (l l' : list str) :
  Permutation l l' -> Permutation (filter f l) (filter f l').
Proof.
  induction 1 as [|x l l' _ IH|x y l|l l' l'' _ IH1 _ IH2]; simpl.
  - constructor.
  - destruct (f x); [constructor|]; exact IH.
  - destruct (f x), (f y); try reflexivity. apply perm_swap.
  - etransitivity; eassumption.
Qed.

Lemma candidates_perm (entries entries' : list str) :
  Permutation entries entries' ->
  sorted (filter (fun name => negb (startswith [95%N] name))
                 (glob_json entries))
  = sorted (filter (fun name => negb (startswith [95%N] name))
                   (glob_json entries')).
Proof.
  intros HP. apply sorted_unique; try apply sorted_sorted.
  rewrite !sorted_perm. unfold glob_json.
  apply Permutation_filter_str, Permutation_filter_str, HP.
Qed.

Lemma nodup_drop (f : str -> bool) (pre post : list str) (x : str) :
  NoDup (pre ++ x :: post) -> NoDup (pre ++ x :: filter f post).
Proof.
  induction pre as [|y pre IH]; simpl; intros H;
    inversion H as [|? ? Hnotin Hrest]; subst.
  - constructor; [|apply NoDup_filter, Hrest].
    intros Hin. apply filter_In in Hin. tauto.
  - constructor; [|apply IH, Hrest].
    intros Hin. apply Hnotin.
    apply in_app_iff in Hin as [Hin | [Hin | Hin]];
      apply in_app_iff; [left; exact Hin | right; left; exact Hin|].
    right; right. apply filter_In in Hin. tauto.
Qed.

End ListingMore.

(** X14: the selection list does not depend on the order in which the
    file system lists the directory. *)
Theorem list_result_files_order_free {U : Unicode}
    (entries entries' : list str) :
  Permutation entries entries' ->
  list_result_files (Some entries) = list_result_files (Some entries').
Proof.
  intros HP. unfold list_result_files.
  rewrite (candidates_perm HP). reflexivity.
Qed.

Lemma list_result_files_order_free_witness :
  @list_result_files basic_unicode
     (Some [u "b.json"; u "a.json"; u "_c.json"])
  = @list_result_files basic_unicode
      (Some [u "a.json"; u "b.json"; u "_c.json"]).
Proof.
  apply (@list_result_files_order_free basic_unicode). apply perm_swap.
Defined.

(** X15: the selection list is empty exactly when the directory is
    missing or holds no name that ends in [.json] and does not start with
    an underscore; and it names no file twice when the listing does
    not. *)
Theorem list_result_files_empty_nodup {U : Unicode} (entries : list str) :
  list_result_files None = []
  /\ (list_result_files (Some entries) = [] <->
      forall n, In n entries ->
                endswith json_suffix n = false
                \/ startswith [95%N] n = true)
  /\ (NoDup entries -> NoDup (list_result_files (Some entries))).
Proof.
  split; [reflexivity|].
  set (files := sorted (filter (fun name => negb (startswith [95%N] name))
                               (glob_json entries))).
  assert (Hkept : list_result_files (Some entries)
                  = fst (fold_left keep_step files ([], false)))
    by reflexivity.
  assert (Hin : forall n, In n files <->
                          In n entries /\ endswith json_suffix n = true
                          /\ startswith [95%N] n = false).
  { intros n. unfold files, glob_json. split.
    - intros H. apply (Permutation_in _ (sorted_perm _)) in H.
      apply filter_In in H as [H Hu]. apply filter_In in H as [H Hj].
      repeat split; try assumption.
      destruct (startswith [95%N] n); [discriminate | reflexivity].
    - intros (H & Hj & Hu).
      apply (Permutation_in _ (Permutation_sym (sorted_perm _))).
      apply filter_In. split; [apply filter_In; auto|].
      rewrite Hu; reflexivity. }
  split.
  - rewrite Hkept. split.
    + intros E n Hn.
      destruct (endswith json_suffix n) eqn:Hj; [|left; reflexivity].
      destruct (startswith [95%N] n) eqn:Hu; [right; reflexivity|].
      exfalso. assert (Hf : In n files) by (apply Hin; auto).
      destruct (kept_cases files)
        as [[_ E'] | (pre & x & post & _ & _ & _ & E')];
        rewrite E' in E.
      * rewrite E in Hf. contradiction.
      * destruct pre; discriminate.
    + intros Hnone.
      assert (Hnil : files = []).
      { destruct files as [|n rest] eqn:Ef; [reflexivity|]. exfalso.
        assert (Hn : In n (n :: rest)) by (left; reflexivity).
        apply Hin in Hn as (Hn & Hj & Hu).
        destruct (Hnone n Hn); congruence. }
      rewrite Hnil. reflexivity.
  - intros Hnd. rewrite Hkept.
    assert (Hfiles : NoDup files).
    { unfold files, glob_json.
      eapply Permutation_NoDup; [symmetry; apply sorted_perm|].
      apply NoDup_filter, NoDup_filter, Hnd. }
    destruct (kept_cases files)
      as [[_ E] | (pre & x & post & Ef & _ & _ & E)]; rewrite E.
    + exact Hfiles.
    + rewrite Ef in Hfiles. apply nodup_drop, Hfiles.
Qed.

Lemma list_result_files_empty_nodup_witness :
  NoDup (@list_result_files basic_unicode (Some sample_listing)).
Proof.
  apply (proj2 (proj2 (@list_result_files_empty_nodup basic_unicode
                         sample_listing))).
  repeat constructor; vm_compute; intuition discriminate.
Defined.
